(** * tracksAI: the railway precedence optimizer

  A shallow embedding of [src/core/models.py] and [src/core/optimizer.py].

  Conventions of the embedding:
  - Python [int] is [Z]; list indices and loop counters are [nat].
  - Python [float] literals and float arithmetic are read as exact
    rationals ([Q]): [0.3] is [3 # 10].  Rounding is not modelled, so of a
    computed float only facts that rounding leaves true are stated (bounds,
    and values that are exact in binary); no equality with an exact mean.
  - [Optional[T]] is [option T]; a dataclass instance is always truthy,
    so [not x] on an [Optional] dataclass value means [x is None].
  - Raised exceptions are values of the error monad [exn].
  - The CP-SAT solver is an external library: it is an oracle that maps a
    model to an exception or to a status and an assignment.
  - Wall-clock readings ([datetime.utcnow()]) are a parameter; the
    [created_at] timestamps of [Decision] and [OptimizationResult], which
    nothing in the optimizer reads, are left out of the records. *)

From Stdlib Require Import ZArith QArith Qminmax List String Bool Lia.
From Stdlib Require Import Permutation DecimalString Decimal.
Import ListNotations.

Local Open Scope string_scope.
Local Open Scope list_scope.

(* ================================================================== *)
(** ** Python runtime pieces used by the source *)
(* ================================================================== *)

Module Py.

(** Exceptions that the modelled code can raise.  Both are subclasses of
    [Exception], so [except Exception] catches them. *)
Inductive PyException : Type :=
| TypeError (msg : string)
| SolverError (msg : string).

(** Result of running a fallible piece of code. *)
Inductive exn (A : Type) : Type :=
| Ok (a : A)
| Raise (e : PyException).
Arguments Ok {A} a.
Arguments Raise {A} e.

Definition bind {A B : Type} (c : exn A) (k : A -> exn B) : exn B :=
  match c with
  | Ok a => k a
  | Raise e => Raise e
  end.

(** [try: body  except Exception: handler] *)
Definition try_except {A : Type} (body : exn A) (handler : PyException -> exn A)
  : exn A :=
  match body with
  | Ok a => Ok a
  | Raise e => handler e
  end.

(** A loop that appends one fallible result per element: the first
    exception aborts the loop. *)
Fixpoint for_each {A B : Type} (f : A -> exn B) (l : list A) : exn (list B) :=
  match l with
  | [] => Ok []
  | x :: rest =>
      bind (f x) (fun y => bind (for_each f rest) (fun ys => Ok (y :: ys)))
  end.

(** [enumerate(l)] *)
Definition enumerate {A : Type} (l : list A) : list (nat * A) :=
  combine (seq 0 (List.length l)) l.

(** [str(n)] for a non-negative [int], as an f-string prints it. *)
Definition str (n : nat) : string :=
  NilEmpty.string_of_uint (Nat.to_uint n).

(** Python's sort is stable.  [insert_by] puts [x] in front of the first
    element that may follow it; [sorted_by] inserts the elements from the
    right, so elements that compare equal keep their order.  With
    [before x y := key x <= key y] this is [sorted(l, key=key)]; with
    [before x y := key x >= key y] it is [sorted(l, key=key, reverse=True)],
    which also keeps equal elements in their original order. *)
Fixpoint insert_by {A : Type} (before : A -> A -> bool) (x : A) (l : list A)
  : list A :=
  match l with
  | [] => [x]
  | y :: rest =>
      if before x y then x :: y :: rest else y :: insert_by before x rest
  end.

Definition sorted_by {A : Type} (before : A -> A -> bool) (l : list A)
  : list A :=
  fold_right (insert_by before) [] l.

End Py.

Import Py.

Notation "x <- c ;; k" := (Py.bind c (fun x => k))
(at level 61, c at next level, right associativity).

(* ================================================================== *)
(** ** [src/core/models.py] *)
(* ================================================================== *)

Module Models.

(** A [uuid.UUID] is a 128-bit number. *)
Definition UUID : Type := N.

(** [datetime] values, as seconds on some fixed time line. *)
Definition datetime : Type := Z.

Inductive TrainType : Type := EXPRESS | PASSENGER | FREIGHT | SPECIAL.

Inductive TrainStatus : Type :=
| ON_TIME | DELAYED | CANCELLED | RUNNING | STOPPED.

Inductive SectionStatus : Type :=
| AVAILABLE | OCCUPIED | MAINTENANCE | BLOCKED.

Definition TrainType_eqb (a b : TrainType) : bool :=
  match a, b with
  | EXPRESS, EXPRESS | PASSENGER, PASSENGER
  | FREIGHT, FREIGHT | SPECIAL, SPECIAL => true
  | _, _ => false
  end.

Definition TrainStatus_eqb (a b : TrainStatus) : bool :=
  match a, b with
  | ON_TIME, ON_TIME | DELAYED, DELAYED | CANCELLED, CANCELLED
  | RUNNING, RUNNING | STOPPED, STOPPED => true
  | _, _ => false
  end.

(** The value held by the field [train_type].  A dataclass does not check
    its annotations, so the field can hold a value that is no member of
    the enum (a plain string read from a row, say); [NotATrainType] stands
    for any such hashable value. *)
Inductive train_type_value : Type :=
| Member (t : TrainType)
| NotATrainType (repr : string).

Record Station : Type := mkStation {
  station_id : option UUID;
  station_name : string;
  station_code : string;
  latitude : Q;
  longitude : Q;
  platforms : Z;
  is_junction : bool
}.

(** [current_trains] holds references to the occupying trains; the
    embedding keeps their identities. *)
Record Section : Type := mkSection {
  section_id : option UUID;
  from_station : Station;
  to_station : Station;
  length_km : Q;
  max_speed_kmh : Z;
  tracks : Z;
  section_status : SectionStatus;
  current_trains : list (option UUID)
}.

Record Train : Type := mkTrain {
  train_id : option UUID;
  number : string;
  name : string;
  train_type : train_type_value;
  max_speed : Z;
  length_m : Z;
  current_section : option Section;
  current_station : option Station;
  status : TrainStatus;
  scheduled_departure : option datetime;
  actual_departure : option datetime;
  scheduled_arrival : option datetime;
  actual_arrival : option datetime;
  delay_minutes : Z;
  priority : Z
}.

(** [priority_map] of [Train.__post_init__], a dict literal. *)
Definition priority_map : list (TrainType * Z) :=
  [ (SPECIAL, 4%Z); (EXPRESS, 3%Z); (PASSENGER, 2%Z); (FREIGHT, 1%Z) ].

(** [priority_map.get(key, default)] *)
Definition priority_map_get (key : train_type_value) (default : Z) : Z :=
  match key with
  | Member t =>
      match find (fun kv => TrainType_eqb (fst kv) t) priority_map with
      | Some kv => snd kv
      | None => default
      end
  | NotATrainType _ => default
  end.

(** [Train.__post_init__].  [self] holds the fields exactly as the
    generated [__init__] stored them from the caller's arguments
    (including a caller-supplied [priority], default 1); [uuid4] is the
    value the next call of [uuid4()] returns. *)
Definition Train_post_init (uuid4 : UUID) (self : Train) : Train :=
  let id' := match train_id self with
             | None => Some uuid4
             | Some i => Some i
             end in
  {| train_id := id';
     number := number self;
     name := name self;
     train_type := train_type self;
     max_speed := max_speed self;
     length_m := length_m self;
     current_section := current_section self;
     current_station := current_station self;
     status := status self;
     scheduled_departure := scheduled_departure self;
     actual_departure := actual_departure self;
     scheduled_arrival := scheduled_arrival self;
     actual_arrival := actual_arrival self;
     delay_minutes := delay_minutes self;
     priority := priority_map_get (train_type self) 1%Z |}.

(** [Train.is_delayed] *)
Definition is_delayed (self : Train) : bool :=
  (0 <? delay_minutes self)%Z.

(** A value passed, or not passed, for a parameter of a call. *)
Inductive argument (A : Type) : Type :=
| Omitted
| Passed (a : A).
Arguments Omitted {A}.
Arguments Passed {A} a.

Record Decision : Type := mkDecision {
  decision_id : option UUID;
  train : Train;
  action : string;
  target_section : option Section;
  target_station : option Station;
  estimated_time : option datetime;
  reason : string;
  confidence : Q
}.

(** The arguments of one call [Decision(...)].  The generated signature is
    [__init__(self, id, train, action, target_section=None,
    target_station=None, estimated_time=None, reason="", confidence=0.0,
    created_at=...)]: [id], [train] and [action] have no default. *)
Record DecisionCall : Type := mkDecisionCall {
  arg_id : argument (option UUID);
  arg_train : Train;
  arg_action : string;
  arg_target_section : option Section;
  arg_target_station : option Station;
  arg_estimated_time : option datetime;
  arg_reason : string;
  arg_confidence : Q
}.

(** Running the call: the generated [__init__] followed by
    [Decision.__post_init__].  A call that passes no [id] raises
    [TypeError] before any field is set. *)
Definition Decision_new (uuid4 : UUID) (c : DecisionCall) : exn Decision :=
  match arg_id c with
  | Omitted =>
      Raise (TypeError
        "Decision.__init__() missing 1 required positional argument: 'id'")
  | Passed i =>
      Ok {| decision_id := match i with None => Some uuid4 | Some _ => i end;
            train := arg_train c;
            action := arg_action c;
            target_section := arg_target_section c;
            target_station := arg_target_station c;
            estimated_time := arg_estimated_time c;
            reason := arg_reason c;
            confidence := arg_confidence c |}
  end.

Record OptimizationResult : Type := mkOptimizationResult {
  decisions : list Decision;
  total_delay_reduction : Z;
  throughput_improvement : Q;
  confidence_score : Q;
  computation_time : Q
}.

Record SystemState : Type := mkSystemState {
  timestamp : datetime;
  trains : list Train;
  sections : list Section;
  stations : list Station;
  active_decisions : list Decision
}.

(** Equality of two [id] fields, [a.id == b.id]. *)
Definition id_eqb (a b : option UUID) : bool :=
  match a, b with
  | Some x, Some y => N.eqb x y
  | None, None => true
  | _, _ => false
  end.

(** [SystemState.get_section_by_id] *)
Definition get_section_by_id (self : SystemState) (sid : option UUID)
  : option Section :=
  find (fun s => id_eqb (section_id s) sid) (sections self).

End Models.

Import Models.

(* ================================================================== *)
(** ** The part of [ortools.sat.python.cp_model] that the source uses *)
(* ================================================================== *)

Module CpSat.

(** The Boolean variable [precedence_vars[(i, j)]], created under the name
    [precedence_{i}_{j}], is identified by its key [(i, j)]. *)
Definition BoolVar : Type := (nat * nat)%type.

(** The three shapes of linear constraint that the source passes to
    [model.Add]; [IntVarEq c] is [total_delay == c]. *)
Inductive Constraint : Type :=
| SumEqOne (x y : BoolVar)
| VarEqOne (x : BoolVar)
| IntVarEq (c : Z).

Record CpModel : Type := mkCpModel {
  bool_vars : list BoolVar;
  int_var : option (Z * Z);
  constraints : list Constraint;
  minimize_int_var : bool
}.

Definition CpModel_new : CpModel :=
  {| bool_vars := []; int_var := None; constraints := [];
     minimize_int_var := false |}.

Definition NewBoolVar (m : CpModel) (v : BoolVar) : CpModel :=
  {| bool_vars := bool_vars m ++ [v]; int_var := int_var m;
     constraints := constraints m; minimize_int_var := minimize_int_var m |}.

Definition NewIntVar (m : CpModel) (lb ub : Z) : CpModel :=
  {| bool_vars := bool_vars m; int_var := Some (lb, ub);
     constraints := constraints m; minimize_int_var := minimize_int_var m |}.

Definition Add (m : CpModel) (c : Constraint) : CpModel :=
  {| bool_vars := bool_vars m; int_var := int_var m;
     constraints := constraints m ++ [c];
     minimize_int_var := minimize_int_var m |}.

Definition Minimize (m : CpModel) : CpModel :=
  {| bool_vars := bool_vars m; int_var := int_var m;
     constraints := constraints m; minimize_int_var := true |}.

(** A value for every variable of a model. *)
Record Assignment : Type := mkAssignment {
  bool_value : BoolVar -> bool;
  int_value : Z
}.

(** [solver.Value(var)] of a Boolean variable is the integer 0 or 1. *)
Definition Value (a : Assignment) (v : BoolVar) : Z :=
  if bool_value a v then 1%Z else 0%Z.

Definition holds (a : Assignment) (c : Constraint) : bool :=
  match c with
  | SumEqOne x y => (Value a x + Value a y =? 1)%Z
  | VarEqOne x => (Value a x =? 1)%Z
  | IntVarEq k => (int_value a =? k)%Z
  end.

Definition in_domain (m : CpModel) (a : Assignment) : bool :=
  match int_var m with
  | Some (lb, ub) => (lb <=? int_value a)%Z && (int_value a <=? ub)%Z
  | None => true
  end.

Definition satisfies (m : CpModel) (a : Assignment) : bool :=
  forallb (holds a) (constraints m) && in_domain m a.

(** [a] is a feasible assignment of [m]. *)
Definition feasible (m : CpModel) (a : Assignment) : Prop :=
  satisfies m a = true.

(** The value of the objective that [model.Minimize(total_delay)] sets. *)
Definition objective_value (a : Assignment) : Z := int_value a.

(** The assignment that differs from [a] at most in the variable [v]. *)
Definition set_bool (a : Assignment) (v : BoolVar) (b : bool) : Assignment :=
  {| bool_value := fun w =>
       if (fst w =? fst v)%nat && (snd w =? snd v)%nat then b
       else bool_value a w;
     int_value := int_value a |}.

Inductive CpSolverStatus : Type :=
| UNKNOWN | MODEL_INVALID | FEASIBLE | INFEASIBLE | OPTIMAL.

Definition CpSolverStatus_eqb (a b : CpSolverStatus) : bool :=
  match a, b with
  | UNKNOWN, UNKNOWN | MODEL_INVALID, MODEL_INVALID | FEASIBLE, FEASIBLE
  | INFEASIBLE, INFEASIBLE | OPTIMAL, OPTIMAL => true
  | _, _ => false
  end.

End CpSat.

Import CpSat.

(* ================================================================== *)
(** ** [src/core/optimizer.py] *)
(* ================================================================== *)

Module Optimizer.

(** What a call of [optimize] gets from outside the program:
    [cp_solve limit model] is [solver.Solve(model)] with
    [max_time_in_seconds = limit], returning the status together with the
    values [solver.Value] reads afterwards, or raising;
    [elapsed_seconds] is [(datetime.utcnow() - start_time).total_seconds()];
    [uuid4] is what [uuid4()] returns. *)
Record Runtime : Type := mkRuntime {
  cp_solve : Q -> CpModel -> exn (CpSolverStatus * Assignment);
  elapsed_seconds : Q;
  uuid4 : UUID
}.

Record RailwayOptimizer : Type := mkRailwayOptimizer {
  time_limit_seconds : Q
}.

(** The condition of the [if] in [_get_trains_needing_decisions]. *)
Definition needs_decision (train : Train) : bool :=
  existsb (TrainStatus_eqb (status train)) [RUNNING; DELAYED]
  && match current_section train with Some _ => true | None => false end.

Definition _get_trains_needing_decisions (system_state : SystemState)
  : list Train :=
  filter needs_decision (trains system_state).

Definition _trains_compete_for_resource
  (train1 train2 : Train) (system_state : SystemState) : bool :=
  match current_section train1, current_section train2 with
  | Some s1, Some s2 =>
      if id_eqb (section_id s1) (section_id s2) then true else false
  | _, _ => false
  end.

(** The iterations of
    [for i, train1 in enumerate(trains): for j, train2 in enumerate(trains)],
    in order. *)
Definition index_pairs (trains : list Train)
  : list ((nat * Train) * (nat * Train)) :=
  flat_map (fun p1 => map (fun p2 => (p1, p2)) (enumerate trains))
           (enumerate trains).

(** Lines 116-121: one Boolean variable per ordered pair [i != j]. *)
Definition new_precedence_vars (model : CpModel) (trains : list Train)
  : CpModel :=
  fold_left
    (fun m '((i, _), (j, _)) =>
       if negb (i =? j)%nat then NewBoolVar m (i, j) else m)
    (index_pairs trains) model.

Definition _add_precedence_constraints
  (model : CpModel) (trains : list Train) (system_state : SystemState)
  : CpModel :=
  fold_left
    (fun m '((i, train1), (j, train2)) =>
       if negb (i =? j)%nat then
         if _trains_compete_for_resource train1 train2 system_state
         then Add m (SumEqOne (i, j) (j, i))
         else m
       else m)
    (index_pairs trains) model.

Definition _add_priority_constraints
  (model : CpModel) (trains : list Train) : CpModel :=
  fold_left
    (fun m '((i, train1), (j, train2)) =>
       if negb (i =? j)%nat && (priority train2 <? priority train1)%Z then
         if (delay_minutes train2 - delay_minutes train1 <? 30)%Z
         then Add m (VarEqOne (i, j))
         else m
       else m)
    (index_pairs trains) model.

(** [section_groups[section_id].append(i)], creating the entry when the
    key is new; the dict is kept in insertion order. *)
Fixpoint group_append
  (groups : list (option UUID * list nat)) (key : option UUID) (i : nat)
  : list (option UUID * list nat) :=
  match groups with
  | [] => [(key, [i])]
  | (k, members) :: rest =>
      if id_eqb k key then (k, members ++ [i]) :: rest
      else (k, members) :: group_append rest key i
  end.

(** Lines 196-202: the indices of the trains, grouped by section. *)
Definition section_groups (trains : list Train)
  : list (option UUID * list nat) :=
  fold_left
    (fun groups '(i, train) =>
       match current_section train with
       | Some s => group_append groups (section_id s) i
       | None => groups
       end)
    (enumerate trains) [].

(** Lines 205-210: the body of the [if] is [pass], so both branches leave
    the model as it is. *)
Definition _add_capacity_constraints
  (model : CpModel) (trains : list Train) (system_state : SystemState)
  : CpModel :=
  fold_left
    (fun m '(sid, train_indices) =>
       match get_section_by_id system_state sid with
       | Some section =>
           if (tracks section <? Z.of_nat (List.length train_indices))%Z
           then m else m
       | None => m
       end)
    (section_groups trains) model.

(** Lines 130-135: [weight * train.delay_minutes] per train. *)
Definition delay_terms (trains : list Train) : list Z :=
  map (fun train =>
         let weight := (priority train * 10)%Z in
         (weight * delay_minutes train)%Z)
      trains.

(** Python's [sum] over integers. *)
Definition sum_Z (l : list Z) : Z := fold_left Z.add l 0%Z.

(** Lines 113-138 of [_solve_precedence_problem]: the model handed to the
    solver. *)
Definition precedence_model (trains : list Train) (system_state : SystemState)
  : CpModel :=
  let model := CpModel_new in
  let model := new_precedence_vars model trains in
  let model := _add_precedence_constraints model trains system_state in
  let model := _add_priority_constraints model trains in
  let model := _add_capacity_constraints model trains system_state in
  let model := NewIntVar model 0 10000 in
  let model := Add model (IntVarEq (sum_Z (delay_terms trains))) in
  Minimize model.

(** Lines 243-246: the number of [j != i] with
    [solver.Value(precedence_vars[(j, i)]) == 1]. *)
Definition position_of (solver : Assignment) (n i : nat) : nat :=
  fold_left
    (fun position j =>
       if negb (i =? j)%nat && (Value solver (j, i) =? 1)%Z
       then (position + 1)%nat else position)
    (seq 0 n) 0%nat.

Definition entry : Type := (nat * nat * Train)%type.
Definition entry_position (e : entry) : nat := fst (fst e).
Definition entry_index (e : entry) : nat := snd (fst e).
Definition entry_train (e : entry) : Train := snd e.

(** Lines 241-250: [(position, i, train)] per train, then
    [precedence_order.sort(key=lambda x: x[0])]. *)
Definition precedence_order (solver : Assignment) (trains : list Train)
  : list entry :=
  sorted_by
    (fun x y => (entry_position x <=? entry_position y)%nat)
    (map (fun '(i, train) => (position_of solver (List.length trains) i, i, train))
         (enumerate trains)).

(** Lines 254-271: the call [Decision(...)] made for one entry.  The local
    [wait_time = position * 5] is computed and never used. *)
Definition solution_call (e : entry) : DecisionCall :=
  let position := entry_position e in
  let train := entry_train e in
  if (position =? 0)%nat then
    {| arg_id := Omitted;
       arg_train := train;
       arg_action := "proceed";
       arg_target_section := current_section train;
       arg_target_station := None;
       arg_estimated_time := None;
       arg_reason := "Highest priority in precedence order";
       arg_confidence := 9 # 10 |}
  else
    {| arg_id := Omitted;
       arg_train := train;
       arg_action := "wait";
       arg_target_section := None;
       arg_target_station := None;
       arg_estimated_time := None;
       arg_reason :=
         "Waiting for " ++ str position ++ " higher priority trains";
       arg_confidence := 8 # 10 |}.

(** The calls [Decision(...)] of [_extract_decisions_from_solution], in the
    order in which the loop makes them. *)
Definition solution_calls (solver : Assignment) (trains : list Train)
  : list DecisionCall :=
  map solution_call (precedence_order solver trains).

Definition _extract_decisions_from_solution
  (rt : Runtime) (solver : Assignment) (trains : list Train)
  (system_state : SystemState) : exn (list Decision) :=
  for_each (Decision_new (uuid4 rt)) (solution_calls solver trains).

(** The sort key [(t.priority, -t.delay_minutes)]. *)
Definition heuristic_key (t : Train) : Z * Z :=
  (priority t, (- delay_minutes t)%Z).

(** [a >= b] on pairs of integers, as Python compares tuples. *)
Definition tuple_ge (a b : Z * Z) : bool :=
  (fst b <? fst a)%Z || ((fst a =? fst b)%Z && (snd b <=? snd a)%Z).

(** Lines 286-290:
    [sorted(trains, key=lambda t: (t.priority, -t.delay_minutes), reverse=True)]. *)
Definition sorted_trains (trains : list Train) : list Train :=
  sorted_by (fun x y => tuple_ge (heuristic_key x) (heuristic_key y)) trains.

(** Lines 293-307: the call [Decision(...)] made for the train at index [i]
    of [sorted_trains]. *)
Definition heuristic_call (p : nat * Train) : DecisionCall :=
  let '(i, train) := p in
  if (i =? 0)%nat then
    {| arg_id := Omitted;
       arg_train := train;
       arg_action := "proceed";
       arg_target_section := current_section train;
       arg_target_station := None;
       arg_estimated_time := None;
       arg_reason := "Highest priority by heuristic";
       arg_confidence := 6 # 10 |}
  else
    {| arg_id := Omitted;
       arg_train := train;
       arg_action := "wait";
       arg_target_section := None;
       arg_target_station := None;
       arg_estimated_time := None;
       arg_reason := "Lower priority than " ++ str i ++ " trains";
       arg_confidence := 5 # 10 |}.

Definition heuristic_calls (trains : list Train) : list DecisionCall :=
  map heuristic_call (enumerate (sorted_trains trains)).

Definition _generate_heuristic_decisions
  (rt : Runtime) (trains : list Train) (system_state : SystemState)
  : exn (list Decision) :=
  for_each (Decision_new (uuid4 rt)) (heuristic_calls trains).

Definition _solve_precedence_problem
  (self : RailwayOptimizer) (rt : Runtime)
  (trains : list Train) (system_state : SystemState) : exn (list Decision) :=
  let model := precedence_model trains system_state in
  r <- cp_solve rt (time_limit_seconds self) model ;;
  let '(status, solver) := r in
  if existsb (CpSolverStatus_eqb status) [OPTIMAL; FEASIBLE]
  then _extract_decisions_from_solution rt solver trains system_state
  else _generate_heuristic_decisions rt trains system_state.

(** The condition of the [if] in [_generate_fallback_decisions]. *)
Definition running_or_delayed (train : Train) : bool :=
  existsb (TrainStatus_eqb (status train)) [RUNNING; DELAYED].

Definition fallback_call (train : Train) : DecisionCall :=
  {| arg_id := Omitted;
     arg_train := train;
     arg_action := "proceed";
     arg_target_section := current_section train;
     arg_target_station := None;
     arg_estimated_time := None;
     arg_reason := "Fallback: proceed with caution";
     arg_confidence := 3 # 10 |}.

Definition fallback_calls (system_state : SystemState) : list DecisionCall :=
  map fallback_call (filter running_or_delayed (trains system_state)).

Definition _generate_fallback_decisions
  (rt : Runtime) (system_state : SystemState) : exn OptimizationResult :=
  decisions <- for_each (Decision_new (uuid4 rt)) (fallback_calls system_state) ;;
  Ok {| decisions := decisions;
        total_delay_reduction := 0;
        throughput_improvement := 0;
        confidence_score := 3 # 10;
        computation_time := 0 |}.

Definition _calculate_delay_reduction
  (decisions : list Decision) (system_state : SystemState) : Z :=
  fold_left
    (fun total_reduction decision =>
       if String.eqb (action decision) "proceed" && is_delayed (train decision)
       then (total_reduction + Z.min (delay_minutes (train decision)) 10)%Z
       else total_reduction)
    decisions 0%Z.

Definition of_nat (n : nat) : Q := inject_Z (Z.of_nat n).

Definition _calculate_throughput_improvement (decisions : list Decision) : Q :=
  let proceed_count :=
    List.length (filter (fun d => String.eqb (action d) "proceed") decisions) in
  let total_count := List.length decisions in
  if (total_count =? 0)%nat then 0
  else (of_nat proceed_count / of_nat total_count) * 20.

(** Python's [sum] over floats. *)
Definition sum_Q (l : list Q) : Q := fold_left Qplus l 0.

Definition _calculate_confidence
  (decisions : list Decision) (system_state : SystemState) : Q :=
  match decisions with
  | [] => 1
  | _ =>
      let avg_confidence :=
        sum_Q (map confidence decisions) / of_nat (List.length decisions) in
      let complexity_factor :=
        Qmin 1 (of_nat (List.length (trains system_state)) / 20) in
      avg_confidence * complexity_factor
  end.

(** The body of the [try] block of [optimize]. *)
Definition optimize_body
  (self : RailwayOptimizer) (rt : Runtime) (system_state : SystemState)
  : exn OptimizationResult :=
  let trains_needing_decisions := _get_trains_needing_decisions system_state in
  match trains_needing_decisions with
  | [] =>
      Ok {| decisions := [];
            total_delay_reduction := 0;
            throughput_improvement := 0;
            confidence_score := 1;
            computation_time := 0 |}
  | _ =>
      decisions <- _solve_precedence_problem
                     self rt trains_needing_decisions system_state ;;
      let delay_reduction := _calculate_delay_reduction decisions system_state in
      let throughput := _calculate_throughput_improvement decisions in
      let confidence := _calculate_confidence decisions system_state in
      Ok {| decisions := decisions;
            total_delay_reduction := delay_reduction;
            throughput_improvement := throughput;
            confidence_score := confidence;
            computation_time := elapsed_seconds rt |}
  end.

Definition optimize
  (self : RailwayOptimizer) (rt : Runtime) (system_state : SystemState)
  : exn OptimizationResult :=
  try_except (optimize_body self rt system_state)
             (fun _ => _generate_fallback_decisions rt system_state).

End Optimizer.

Import Optimizer.

(* ================================================================== *)
(** ** Concrete inputs *)
(* ================================================================== *)

Module Sample.

Definition station (n : N) : Station :=
  {| station_id := Some n; station_name := "Station"; station_code := "ST";
     latitude := 19; longitude := 72; platforms := 4; is_junction := false |}.

(** A single-track section, as in [tests/test_optimizer.py]. *)
Definition section (n : N) : Section :=
  {| section_id := Some n; from_station := station 1; to_station := station 2;
     length_km := 10; max_speed_kmh := 80; tracks := 1;
     section_status := AVAILABLE; current_trains := [] |}.

(** [Train(id=..., number=..., name=..., train_type=ty, max_speed=100,
    length=400, current_section=s, status=st, delay_minutes=d)]. *)
Definition new_train
  (n : N) (ty : TrainType) (s : option Section) (st : TrainStatus) (d : Z)
  : Train :=
  Train_post_init 0%N
    {| train_id := Some n; number := "12345"; name := "Train";
       train_type := Member ty; max_speed := 100; length_m := 400;
       current_section := s; current_station := None; status := st;
       scheduled_departure := None; actual_departure := None;
       scheduled_arrival := None; actual_arrival := None;
       delay_minutes := d; priority := 1 |}.

Definition state_of (ts : list Train) : SystemState :=
  {| timestamp := 0%Z; trains := ts; sections := [section 10; section 11];
     stations := [station 1; station 2]; active_decisions := [] |}.

Definition optimizer : RailwayOptimizer := {| time_limit_seconds := 30 |}.

(** An express and a freight train on two different sections. *)
Definition express_a : Train := new_train 1 EXPRESS (Some (section 10)) RUNNING 0.
Definition freight_b : Train := new_train 2 FREIGHT (Some (section 11)) RUNNING 0.
Definition apart : list Train := [express_a; freight_b].

(** The assignment in which exactly the variables listed in [ones] are 1
    and [total_delay] is [total]. *)
Definition assignment (ones : list BoolVar) (total : Z) : Assignment :=
  {| bool_value := fun v =>
       existsb (fun w => (fst w =? fst v)%nat && (snd w =? snd v)%nat) ones;
     int_value := total |}.

(** The trains of [test_optimize_with_delays]: two express trains on one
    section, one on time and one 30 minutes late. *)
Definition on_time_train : Train :=
  new_train 3 EXPRESS (Some (section 10)) RUNNING 0.
Definition delayed_train : Train :=
  new_train 4 EXPRESS (Some (section 10)) DELAYED 30.
Definition contested : list Train := [on_time_train; delayed_train].

(** A freight train 40 minutes late behind an express train on time, on
    one section. *)
Definition late_freight : Train :=
  new_train 5 FREIGHT (Some (section 10)) DELAYED 40.
Definition overridden : list Train := [on_time_train; late_freight].

(** A solver that finds [a] optimal, and one that raises. *)
Definition solver_returning (a : Assignment) : Runtime :=
  {| cp_solve := fun _ _ => Ok (OPTIMAL, a); elapsed_seconds := 1 # 100;
     uuid4 := 7%N |}.

Definition solver_raising : Runtime :=
  {| cp_solve := fun _ _ => Raise (SolverError "injected fault");
     elapsed_seconds := 1 # 100; uuid4 := 7%N |}.

(** A stopped train on a section, a cancelled train without a section, and
    a running train that is on no section. *)
Definition stopped_train : Train :=
  new_train 6 PASSENGER (Some (section 10)) STOPPED 0.
Definition cancelled_train : Train :=
  new_train 7 PASSENGER None CANCELLED 0.
Definition unplaced_train : Train :=
  new_train 8 EXPRESS None RUNNING 0.

Definition decision_with (c : Q) : Decision :=
  {| decision_id := Some 1%N; train := express_a; action := "proceed";
     target_section := None; target_station := None; estimated_time := None;
     reason := ""; confidence := c |}.

End Sample.


(* ================================================================== *)
(** ** Vocabulary of the statements *)
(* ================================================================== *)

(** Consecutive elements of the output are in the order [before] when
    [before] is total. *)
Inductive chain {A : Type} (R : A -> A -> Prop) : list A -> Prop :=
| chain_nil : chain R []
| chain_one x : chain R [x]
| chain_cons x y l : R x y -> chain R (y :: l) -> chain R (x :: y :: l).


(** The test of [_add_priority_constraints] on a pair of trains: [t1] has
    the strictly higher priority and [t2] is less than 30 minutes further
    behind than [t1]. *)
Definition dominates (t1 t2 : Train) : bool :=
  (priority t2 <? priority t1)%Z
  && (delay_minutes t2 - delay_minutes t1 <? 30)%Z.

(** What one iteration of [_add_precedence_constraints] and of
    [_add_priority_constraints] appends to the constraints. *)
Definition exclusivity_added
  (system_state : SystemState) (p : (nat * Train) * (nat * Train))
  : list Constraint :=
  let '((i, train1), (j, train2)) := p in
  if negb (i =? j)%nat && _trains_compete_for_resource train1 train2 system_state
  then [SumEqOne (i, j) (j, i)] else [].

Definition dominance_added (p : (nat * Train) * (nat * Train))
  : list Constraint :=
  let '((i, train1), (j, train2)) := p in
  if negb (i =? j)%nat && dominates train1 train2
  then [VarEqOne (i, j)] else [].

Definition var_eqb (w v : BoolVar) : bool :=
  (fst w =? fst v)%nat && (snd w =? snd v)%nat.

(** The constraint [c] contains the variable [v]. *)
Definition mentions (c : Constraint) (v : BoolVar) : bool :=
  match c with
  | SumEqOne x y => var_eqb x v || var_eqb y v
  | VarEqOne x => var_eqb x v
  | IntVarEq _ => false
  end.

(** [a] with [before(i,j) := b1] and [before(j,i) := b2]. *)
Definition set_pair (a : Assignment) (i j : nat) (b1 b2 : bool) : Assignment :=
  set_bool (set_bool a (i, j) b1) (j, i) b2.

(** The objective as the specification writes it:
    the sum over the trains of [(priority * 10) * delay_minutes]. *)
Definition weighted_delay (trains : list Train) : Z :=
  fold_right (fun t acc => (priority t * 10 * delay_minutes t + acc)%Z) 0%Z trains.

(** The priority table as the specification writes it. *)
Definition priority_of_type (v : train_type_value) : Z :=
  match v with
  | Member SPECIAL => 4
  | Member EXPRESS => 3
  | Member PASSENGER => 2
  | Member FREIGHT => 1
  | NotATrainType _ => 1
  end.

(** The arithmetic mean of a list of confidences. *)
Definition arithmetic_mean (l : list Q) : Q :=
  fold_right Qplus 0 l / of_nat (List.length l).

(** An eligible train: status Running or Delayed, and a current section. *)
Definition eligible (t : Train) : Prop :=
  (status t = RUNNING \/ status t = DELAYED) /\ current_section t <> None.

(** The order in which the heuristic leaves two consecutive trains: higher
    priority first, and among equal priorities the smaller delay first. *)
Definition heuristic_order (x y : Train) : Prop :=
  (priority y < priority x)%Z
  \/ (priority x = priority y /\ (delay_minutes x <= delay_minutes y)%Z).

(** The message of the [TypeError] that a call [Decision(...)] without [id]
    raises. *)
Definition missing_id : PyException :=
  TypeError "Decision.__init__() missing 1 required positional argument: 'id'".

(* ================================================================== *)
(** ** [src/core/models.py]: the methods the optimizer does not call *)
(* ================================================================== *)

Module Methods.

Definition SectionStatus_eqb (a b : SectionStatus) : bool :=
  match a, b with
  | AVAILABLE, AVAILABLE | OCCUPIED, OCCUPIED
  | MAINTENANCE, MAINTENANCE | BLOCKED, BLOCKED => true
  | _, _ => false
  end.

(** [Section.is_available] *)
Definition is_available (self : Section) : bool :=
  SectionStatus_eqb (section_status self) AVAILABLE
  && (Z.of_nat (List.length (current_trains self)) <? tracks self)%Z.

(** [Section.can_accommodate] *)
Definition can_accommodate (self : Section) (train : Train) : bool :=
  is_available self && (max_speed train <=? max_speed_kmh self)%Z.

(** [int(x)] of a float: the fraction is cut off, towards zero. *)
Definition int_of_float (x : Q) : Z := Z.quot (Qnum x) (Z.pos (Qden x)).

(** [Train.calculate_delay].  A [datetime] is always truthy, so the test is
    that both departures are set; the difference of two [datetime]s in
    seconds is [total_seconds()]. *)
Definition calculate_delay (self : Train) (current_time : datetime) : Z :=
  match scheduled_departure self, actual_departure self with
  | Some scheduled, Some actual =>
      let delay := inject_Z (actual - scheduled) / 60 in
      Z.max 0 (int_of_float delay)
  | _, _ => 0%Z
  end.

(** [Train.estimated_arrival]; [timedelta(minutes=m)] is [60 * m] seconds. *)
Definition estimated_arrival (self : Train) : option datetime :=
  match scheduled_arrival self with
  | Some scheduled => Some (scheduled + 60 * delay_minutes self)%Z
  | None => None
  end.

(** The [==] that [@dataclass] generates for [Station]: the tuples of the
    fields are compared. *)
Definition Station_eqb (a b : Station) : bool :=
  id_eqb (station_id a) (station_id b)
  && String.eqb (station_name a) (station_name b)
  && String.eqb (station_code a) (station_code b)
  && Qeq_bool (latitude a) (latitude b)
  && Qeq_bool (longitude a) (longitude b)
  && (platforms a =? platforms b)%Z
  && Bool.eqb (is_junction a) (is_junction b).

Record Schedule : Type := mkSchedule {
  schedule_id : option UUID;
  schedule_train : Train;
  schedule_stations : list Station;
  arrival_times : list datetime;
  departure_times : list datetime;
  section_sequence : list Section
}.

(** [l.index(x)]: the index of the first element equal to [x]; [None]
    stands for the [ValueError] raised when there is none. *)
Fixpoint index_of (x : Station) (l : list Station) : option nat :=
  match l with
  | [] => None
  | y :: rest =>
      if Station_eqb y x then Some 0%nat
      else match index_of x rest with
           | Some i => Some (S i)
           | None => None
           end
  end.

(** [Schedule.get_next_station]; the [ValueError] is caught and [None]
    returned. *)
Definition get_next_station (self : Schedule) (current_station : Station)
  : option Station :=
  match index_of current_station (schedule_stations self) with
  | Some current_index =>
      if (Z.of_nat current_index
          <? Z.of_nat (List.length (schedule_stations self)) - 1)%Z
      then nth_error (schedule_stations self) (current_index + 1)
      else None
  | None => None
  end.

(** [Schedule.get_section_to_next_station] *)
Definition get_section_to_next_station
  (self : Schedule) (current_station : Station) : option Section :=
  match get_next_station self current_station with
  | Some next_station =>
      find (fun section =>
              Station_eqb (from_station section) current_station
              && Station_eqb (to_station section) next_station)
           (section_sequence self)
  | None => None
  end.

(** [SystemState.get_train_by_id] and [SystemState.get_station_by_id] *)
Definition get_train_by_id (self : SystemState) (tid : option UUID)
  : option Train :=
  find (fun t => id_eqb (train_id t) tid) (trains self).

Definition get_station_by_id (self : SystemState) (sid : option UUID)
  : option Station :=
  find (fun s => id_eqb (station_id s) sid) (stations self).

End Methods.

Import Methods.

(* ================================================================== *)
(** ** Further vocabulary *)
(* ================================================================== *)

(** An assignment built from the trains alone: [before(i,j)] holds when
    train [i] dominates train [j], or when neither dominates the other and
    [i < j]; [total_delay] is the weighted delay. *)
Definition canonical_assignment (trains : list Train) : Assignment :=
  {| bool_value := fun v =>
       match nth_error trains (fst v), nth_error trains (snd v) with
       | Some ti, Some tj =>
           dominates ti tj || (negb (dominates tj ti) && (fst v <? snd v)%nat)
       | _, _ => false
       end;
     int_value := weighted_delay trains |}.

(** The variables of a constraint. *)
Definition variables_of (c : Constraint) : list BoolVar :=
  match c with
  | SumEqOne x y => [x; y]
  | VarEqOne x => [x]
  | IntVarEq _ => []
  end.

(** The call tells its train to proceed. *)
Definition proceeds (c : DecisionCall) : bool :=
  String.eqb (arg_action c) "proceed".

(** The decisions that [_calculate_delay_reduction] credits. *)
Definition credited (d : Decision) : bool :=
  String.eqb (action d) "proceed" && is_delayed (train d).

(** Two trains with the same heuristic sort key. *)
Definition same_key (x y : Train) : bool :=
  (priority x =? priority y)%Z && (delay_minutes x =? delay_minutes y)%Z.

(** The entries of [precedence_order] before sorting, in index order. *)
Definition unsorted_entries (a : Assignment) (trains : list Train) : list entry :=
  map (fun '(i, train) => (position_of a (List.length trains) i, i, train))
      (enumerate trains).

(** The section [s] with one more train on it. *)
Definition with_occupant (s : Section) (occupant : option UUID) : Section :=
  {| section_id := section_id s;
     from_station := from_station s;
     to_station := to_station s;
     length_km := length_km s;
     max_speed_kmh := max_speed_kmh s;
     tracks := tracks s;
     section_status := section_status s;
     current_trains := current_trains s ++ [occupant] |}.

(** [x] is the first element of [l] that passes [test]. *)
Definition first_match {A : Type} (test : A -> bool) (l : list A) (x : A) : Prop :=
  exists pre post,
    l = pre ++ x :: post /\ test x = true
    /\ forall y, In y pre -> test y = false.

(** A schedule over three stations and the two sections between them, and a
    train that left 150 seconds late. *)
Definition station_a : Station := Sample.station 1.
Definition station_b : Station := Sample.station 2.
Definition station_c : Station := Sample.station 3.

Definition section_between (n : N) (a b : Station) : Section :=
  {| section_id := Some n; from_station := a; to_station := b;
     length_km := 10; max_speed_kmh := 80; tracks := 1;
     section_status := AVAILABLE; current_trains := [] |}.

Definition sample_schedule : Schedule :=
  {| schedule_id := Some 1%N;
     schedule_train := Sample.express_a;
     schedule_stations := [station_a; station_b; station_c];
     arrival_times := [0%Z; 600%Z; 1200%Z];
     departure_times := [60%Z; 660%Z; 1260%Z];
     section_sequence := [section_between 20 station_a station_b;
                          section_between 21 station_b station_c] |}.

Definition late_departure : Train :=
  {| train_id := Some 9%N; number := "12345"; name := "Train";
     train_type := Member EXPRESS; max_speed := 100; length_m := 400;
     current_section := None; current_station := None; status := DELAYED;
     scheduled_departure := Some 1000%Z; actual_departure := Some 1150%Z;
     scheduled_arrival := None; actual_arrival := None;
     delay_minutes := 0; priority := 3 |}.
(* ================================================================== *)
(** ** Lists, loops and sorting *)
(* ================================================================== *)

Lemma combine_seq_nth_error (A : Type) (l : list A) (s k : nat) :
  nth_error (combine (seq s (List.length l)) l) k
  = option_map (fun x => ((s + k)%nat, x)) (nth_error l k).
Proof.
  revert s k; induction l as [|a l IH]; intros s k; simpl.
  - destruct k; reflexivity.
  - destruct k; simpl.
    + rewrite Nat.add_0_r; reflexivity.
    + rewrite IH. replace (S s + k)%nat with (s + S k)%nat by lia. reflexivity.
Qed.

Lemma enumerate_nth_error (A : Type) (l : list A) (k : nat) :
  nth_error (enumerate l) k = option_map (fun x => (k, x)) (nth_error l k).
Proof. unfold enumerate. now rewrite combine_seq_nth_error. Qed.

Lemma In_enumerate (A : Type) (l : list A) (i : nat) (x : A) :
  In (i, x) (enumerate l) <-> nth_error l i = Some x.
Proof.
  split.
  - intros H. apply In_nth_error in H. destruct H as [k Hk].
    rewrite enumerate_nth_error in Hk.
    destruct (nth_error l k) eqn:E; simpl in Hk; [|discriminate].
    injection Hk as -> ->. exact E.
  - intros H. apply (nth_error_In _ i).
    rewrite enumerate_nth_error, H. reflexivity.
Qed.

Lemma In_index_pairs (trains : list Train) (i j : nat) (t1 t2 : Train) :
  In ((i, t1), (j, t2)) (index_pairs trains)
  <-> nth_error trains i = Some t1 /\ nth_error trains j = Some t2.
Proof.
  unfold index_pairs. rewrite in_flat_map. split.
  - intros [[i' t1'] [H1 H2]]. apply in_map_iff in H2.
    destruct H2 as [[j' t2'] [E H2]]. injection E as -> -> -> ->.
    now rewrite <- !In_enumerate.
  - intros [H1 H2]. exists (i, t1). split; [now apply In_enumerate|].
    apply in_map_iff. exists (j, t2). split; [reflexivity|now apply In_enumerate].
Qed.

(** A loop that counts the elements passing a test. *)
Lemma count_loop (A : Type) (test : A -> bool) (l : list A) (start : nat) :
  fold_left (fun n x => if test x then (n + 1)%nat else n) l start
  = (start + List.length (filter test l))%nat.
Proof.
  revert start; induction l as [|a l IH]; intros start; simpl.
  - lia.
  - rewrite IH. destruct (test a); simpl; lia.
Qed.

Lemma position_of_count (solver : Assignment) (n i : nat) :
  position_of solver n i
  = List.length
      (filter (fun j => negb (i =? j)%nat && (Value solver (j, i) =? 1)%Z)
              (seq 0 n)).
Proof. unfold position_of. now rewrite count_loop. Qed.


Lemma insert_by_perm (A : Type) (before : A -> A -> bool) (x : A) (l : list A) :
  Permutation (insert_by before x l) (x :: l).
Proof.
  induction l as [|y l IH]; simpl; [reflexivity|].
  destruct (before x y); [reflexivity|].
  rewrite IH. apply perm_swap.
Qed.

Lemma sorted_by_perm (A : Type) (before : A -> A -> bool) (l : list A) :
  Permutation (sorted_by before l) l.
Proof.
  induction l as [|x l IH]; simpl; [reflexivity|].
  rewrite insert_by_perm. now apply perm_skip.
Qed.

Lemma insert_by_chain (A : Type) (before : A -> A -> bool) (x : A) (l : list A) :
  (forall a b, before a b = false -> before b a = true) ->
  chain (fun a b => before a b = true) l ->
  chain (fun a b => before a b = true) (insert_by before x l).
Proof.
  intros total. induction 1 as [|y|y z l Hyz Hc IH]; simpl.
  - constructor.
  - destruct (before x y) eqn:E; repeat constructor; auto.
  - destruct (before x y) eqn:E.
    + repeat constructor; auto.
    + simpl in IH. destruct (before x z) eqn:E2.
      * constructor; [now apply total|]. exact IH.
      * constructor; [exact Hyz|exact IH].
Qed.

Lemma sorted_by_chain (A : Type) (before : A -> A -> bool) (l : list A) :
  (forall a b, before a b = false -> before b a = true) ->
  chain (fun a b => before a b = true) (sorted_by before l).
Proof.
  intros total. induction l as [|x l IH]; simpl; [constructor|].
  now apply insert_by_chain.
Qed.

(* ================================================================== *)
(** ** The model built by [_solve_precedence_problem] *)
(* ================================================================== *)

Lemma loop_constraints
  (A : Type) (step : CpModel -> A -> CpModel) (added : A -> list Constraint) :
  (forall m x, constraints (step m x) = constraints m ++ added x) ->
  forall l m, constraints (fold_left step l m) = constraints m ++ flat_map added l.
Proof.
  intros Hstep. induction l as [|x l IH]; intros m; simpl.
  - now rewrite app_nil_r.
  - rewrite IH, Hstep, <- app_assoc. reflexivity.
Qed.

Lemma flat_map_nothing (A B : Type) (l : list A) :
  flat_map (fun _ : A => @nil B) l = [].
Proof. induction l; simpl; auto. Qed.

Lemma new_precedence_vars_constraints (m : CpModel) (trains : list Train) :
  constraints (new_precedence_vars m trains) = constraints m.
Proof.
  unfold new_precedence_vars.
  rewrite (loop_constraints _ _ (fun _ => [])).
  - now rewrite flat_map_nothing, app_nil_r.
  - intros m' [[i t1] [j t2]]. rewrite app_nil_r.
    destruct (negb (i =? j)%nat); reflexivity.
Qed.

Lemma add_precedence_constraints_constraints
  (m : CpModel) (trains : list Train) (st : SystemState) :
  constraints (_add_precedence_constraints m trains st)
  = constraints m ++ flat_map (exclusivity_added st) (index_pairs trains).
Proof.
  unfold _add_precedence_constraints. apply loop_constraints.
  intros m' [[i t1] [j t2]]. unfold exclusivity_added.
  destruct (negb (i =? j)%nat); simpl;
    [destruct (_trains_compete_for_resource t1 t2 st)|];
    simpl; now rewrite ?app_nil_r.
Qed.

Lemma add_priority_constraints_constraints (m : CpModel) (trains : list Train) :
  constraints (_add_priority_constraints m trains)
  = constraints m ++ flat_map dominance_added (index_pairs trains).
Proof.
  unfold _add_priority_constraints. apply loop_constraints.
  intros m' [[i t1] [j t2]]. unfold dominance_added, dominates.
  destruct (negb (i =? j)%nat); simpl;
    [destruct (priority t2 <? priority t1)%Z; simpl;
       [destruct (delay_minutes t2 - delay_minutes t1 <? 30)%Z|]|];
    simpl; now rewrite ?app_nil_r.
Qed.

Lemma add_capacity_constraints_id
  (m : CpModel) (trains : list Train) (st : SystemState) :
  _add_capacity_constraints m trains st = m.
Proof.
  unfold _add_capacity_constraints.
  induction (section_groups trains) as [|[sid members] l IH]; simpl;
    [reflexivity|].
  destruct (get_section_by_id st sid) as [section|]; [|exact IH].
  destruct (tracks section <? Z.of_nat (List.length members))%Z; exact IH.
Qed.

Lemma precedence_model_constraints (trains : list Train) (st : SystemState) :
  constraints (precedence_model trains st)
  = flat_map (exclusivity_added st) (index_pairs trains)
    ++ flat_map dominance_added (index_pairs trains)
    ++ [IntVarEq (sum_Z (delay_terms trains))].
Proof.
  unfold precedence_model. simpl. rewrite add_capacity_constraints_id.
  rewrite add_priority_constraints_constraints,
          add_precedence_constraints_constraints,
          new_precedence_vars_constraints.
  simpl. now rewrite <- app_assoc.
Qed.

Lemma In_exclusivity (trains : list Train) (st : SystemState) (c : Constraint) :
  In c (flat_map (exclusivity_added st) (index_pairs trains))
  <-> exists i j t1 t2,
        nth_error trains i = Some t1 /\ nth_error trains j = Some t2
        /\ i <> j /\ _trains_compete_for_resource t1 t2 st = true
        /\ c = SumEqOne (i, j) (j, i).
Proof.
  rewrite in_flat_map. split.
  - intros [[[i t1] [j t2]] [Hp Hc]]. apply In_index_pairs in Hp.
    unfold exclusivity_added in Hc.
    destruct (i =? j)%nat eqn:E; simpl in Hc; [contradiction|].
    destruct (_trains_compete_for_resource t1 t2 st) eqn:K; [|contradiction].
    destruct Hc as [<-|[]]. apply Nat.eqb_neq in E.
    exists i, j, t1, t2. tauto.
  - intros (i & j & t1 & t2 & H1 & H2 & Hij & K & ->).
    exists ((i, t1), (j, t2)). split; [now apply In_index_pairs|].
    unfold exclusivity_added. apply Nat.eqb_neq in Hij.
    rewrite Hij, K. simpl. auto.
Qed.

Lemma In_dominance (trains : list Train) (c : Constraint) :
  In c (flat_map dominance_added (index_pairs trains))
  <-> exists i j t1 t2,
        nth_error trains i = Some t1 /\ nth_error trains j = Some t2
        /\ i <> j /\ dominates t1 t2 = true /\ c = VarEqOne (i, j).
Proof.
  rewrite in_flat_map. split.
  - intros [[[i t1] [j t2]] [Hp Hc]]. apply In_index_pairs in Hp.
    unfold dominance_added in Hc.
    destruct (i =? j)%nat eqn:E; simpl in Hc; [contradiction|].
    destruct (dominates t1 t2) eqn:K; [|contradiction].
    destruct Hc as [<-|[]]. apply Nat.eqb_neq in E.
    exists i, j, t1, t2. tauto.
  - intros (i & j & t1 & t2 & H1 & H2 & Hij & K & ->).
    exists ((i, t1), (j, t2)). split; [now apply In_index_pairs|].
    unfold dominance_added. apply Nat.eqb_neq in Hij.
    rewrite Hij, K. simpl. auto.
Qed.

(** Every constraint of the model has one of three origins. *)
Lemma In_model (trains : list Train) (st : SystemState) (c : Constraint) :
  In c (constraints (precedence_model trains st))
  <-> In c (flat_map (exclusivity_added st) (index_pairs trains))
      \/ In c (flat_map dominance_added (index_pairs trains))
      \/ c = IntVarEq (sum_Z (delay_terms trains)).
Proof.
  rewrite precedence_model_constraints, !in_app_iff. simpl.
  intuition congruence.
Qed.

Lemma feasible_iff (m : CpModel) (a : Assignment) :
  feasible m a
  <-> (forall c, In c (constraints m) -> holds a c = true)
      /\ in_domain m a = true.
Proof.
  unfold feasible, satisfies. now rewrite andb_true_iff, forallb_forall.
Qed.

Lemma compete_sym (t1 t2 : Train) (st : SystemState) :
  _trains_compete_for_resource t1 t2 st = _trains_compete_for_resource t2 t1 st.
Proof.
  unfold _trains_compete_for_resource.
  destruct (current_section t1) as [s1|], (current_section t2) as [s2|]; auto.
  destruct (section_id s1) as [x|], (section_id s2) as [y|]; simpl; auto.
  now rewrite N.eqb_sym.
Qed.

Lemma var_eqb_eq (w v : BoolVar) : var_eqb w v = true <-> w = v.
Proof.
  destruct w as [a b], v as [c d]. unfold var_eqb. simpl.
  rewrite andb_true_iff, !Nat.eqb_eq. split; [intros [-> ->]|intros [= -> ->]]; auto.
Qed.

Lemma var_eqb_neq (w v : BoolVar) : var_eqb w v = false <-> w <> v.
Proof.
  rewrite <- var_eqb_eq. destruct (var_eqb w v); split; congruence.
Qed.

Lemma Value_set_bool (a : Assignment) (v w : BoolVar) (b : bool) :
  Value (set_bool a v b) w
  = if var_eqb w v then (if b then 1%Z else 0%Z) else Value a w.
Proof.
  unfold Value, set_bool, var_eqb. simpl.
  destruct ((fst w =? fst v)%nat && (snd w =? snd v)%nat); reflexivity.
Qed.

(** Changing a variable that a constraint does not contain does not change
    whether the constraint holds. *)
Lemma holds_set_bool (a : Assignment) (v : BoolVar) (b : bool) (c : Constraint) :
  mentions c v = false -> holds (set_bool a v b) c = holds a c.
Proof.
  destruct c as [x y|x|k]; simpl; intros H.
  - apply orb_false_iff in H. destruct H as [Hx Hy].
    now rewrite !Value_set_bool, Hx, Hy.
  - now rewrite Value_set_bool, H.
  - reflexivity.
Qed.

Lemma feasible_set_bool (m : CpModel) (a : Assignment) (v : BoolVar) (b : bool) :
  (forall c, In c (constraints m) -> mentions c v = false) ->
  feasible m a -> feasible m (set_bool a v b).
Proof.
  rewrite !feasible_iff. intros Hfree [Hc Hd]. split.
  - intros c Hin. rewrite holds_set_bool; auto.
  - exact Hd.
Qed.

Lemma sum_Z_from (l : list Z) (start : Z) :
  fold_left Z.add l start = (start + fold_right Z.add 0 l)%Z.
Proof.
  revert start; induction l as [|x l IH]; intros start; simpl; [lia|].
  rewrite IH. lia.
Qed.

Lemma sum_delay_terms (trains : list Train) :
  sum_Z (delay_terms trains) = weighted_delay trains.
Proof.
  unfold sum_Z. rewrite sum_Z_from. simpl.
  induction trains as [|t l IH]; simpl; [reflexivity|]. rewrite IH. reflexivity.
Qed.

Lemma exclusivity_in_model
  (trains : list Train) (st : SystemState) (i j : nat) (ti tj : Train) :
  nth_error trains i = Some ti -> nth_error trains j = Some tj -> i <> j ->
  _trains_compete_for_resource ti tj st = true ->
  In (SumEqOne (i, j) (j, i)) (constraints (precedence_model trains st)).
Proof.
  intros Hi Hj Hij K. apply In_model. left. apply In_exclusivity.
  exists i, j, ti, tj. tauto.
Qed.

Lemma dominance_in_model
  (trains : list Train) (st : SystemState) (i j : nat) (ti tj : Train) :
  nth_error trains i = Some ti -> nth_error trains j = Some tj -> i <> j ->
  dominates ti tj = true ->
  In (VarEqOne (i, j)) (constraints (precedence_model trains st)).
Proof.
  intros Hi Hj Hij K. apply In_model. right; left. apply In_dominance.
  exists i, j, ti, tj. tauto.
Qed.

Lemma VarEqOne_in_model_inv
  (trains : list Train) (st : SystemState) (i j : nat) :
  In (VarEqOne (i, j)) (constraints (precedence_model trains st)) ->
  exists ti tj, nth_error trains i = Some ti /\ nth_error trains j = Some tj
                /\ i <> j /\ dominates ti tj = true.
Proof.
  intros H. apply In_model in H. destruct H as [H|[H|H]]; [| |discriminate].
  - apply In_exclusivity in H.
    destruct H as (? & ? & ? & ? & _ & _ & _ & _ & E). discriminate.
  - apply In_dominance in H.
    destruct H as (i' & j' & t1 & t2 & H1 & H2 & Hij & K & E).
    injection E as -> ->. exists t1, t2. tauto.
Qed.

Lemma SumEqOne_in_model_inv
  (trains : list Train) (st : SystemState) (x y : BoolVar) :
  In (SumEqOne x y) (constraints (precedence_model trains st)) ->
  exists i j ti tj,
    nth_error trains i = Some ti /\ nth_error trains j = Some tj /\ i <> j
    /\ _trains_compete_for_resource ti tj st = true
    /\ x = (i, j) /\ y = (j, i).
Proof.
  intros H. apply In_model in H. destruct H as [H|[H|H]]; [| |discriminate].
  - apply In_exclusivity in H.
    destruct H as (i & j & t1 & t2 & H1 & H2 & Hij & K & E).
    injection E as -> ->. exists i, j, t1, t2. tauto.
  - apply In_dominance in H.
    destruct H as (? & ? & ? & ? & _ & _ & _ & _ & E). discriminate.
Qed.

Lemma feasible_exclusive (m : CpModel) (a : Assignment) (x y : BoolVar) :
  feasible m a -> In (SumEqOne x y) (constraints m) ->
  bool_value a x = negb (bool_value a y).
Proof.
  intros F Hin. apply feasible_iff in F. destruct F as [F _].
  specialize (F _ Hin). simpl in F. unfold Value in F.
  destruct (bool_value a x), (bool_value a y); simpl in *; congruence.
Qed.

Lemma feasible_forced (m : CpModel) (a : Assignment) (x : BoolVar) :
  feasible m a -> In (VarEqOne x) (constraints m) -> bool_value a x = true.
Proof.
  intros F Hin. apply feasible_iff in F. destruct F as [F _].
  specialize (F _ Hin). simpl in F. unfold Value in F.
  destruct (bool_value a x); simpl in *; congruence.
Qed.

Lemma var_eqb_swap (i j i' j' : nat) :
  var_eqb (j', i') (i, j) = var_eqb (i', j') (j, i).
Proof. unfold var_eqb. simpl. apply andb_comm. Qed.

Lemma holds_set_pair_other
  (a : Assignment) (i j : nat) (b1 b2 : bool) (c : Constraint) :
  mentions c (i, j) = false -> mentions c (j, i) = false ->
  holds (set_pair a i j b1 b2) c = holds a c.
Proof.
  intros H1 H2. unfold set_pair. now rewrite !holds_set_bool.
Qed.

Lemma holds_set_pair_sum (a : Assignment) (i j : nat) (b : bool) :
  i <> j ->
  holds (set_pair a i j b (negb b)) (SumEqOne (i, j) (j, i)) = true
  /\ holds (set_pair a i j b (negb b)) (SumEqOne (j, i) (i, j)) = true.
Proof.
  intros Hij. unfold set_pair. simpl. rewrite !Value_set_bool.
  assert (E1 : var_eqb (i, j) (j, i) = false).
  { apply var_eqb_neq. congruence. }
  assert (E2 : var_eqb (j, i) (j, i) = true) by now apply var_eqb_eq.
  assert (E3 : var_eqb (i, j) (i, j) = true) by now apply var_eqb_eq.
  rewrite E1, E2, E3. destruct b; simpl; auto.
Qed.

(** In a pair without a dominance constraint in either direction, the two
    variables can be set to any complementary values. *)
Lemma feasible_set_pair
  (trains : list Train) (st : SystemState) (i j : nat) (a : Assignment) (b : bool) :
  i <> j ->
  ~ In (VarEqOne (i, j)) (constraints (precedence_model trains st)) ->
  ~ In (VarEqOne (j, i)) (constraints (precedence_model trains st)) ->
  feasible (precedence_model trains st) a ->
  feasible (precedence_model trains st) (set_pair a i j b (negb b)).
Proof.
  intros Hij N1 N2 F. pose proof F as F'. apply feasible_iff in F'.
  destruct F' as [Hc Hd]. apply feasible_iff. split; [|exact Hd].
  intros c Hin. destruct c as [x y|x|k].
  - destruct (SumEqOne_in_model_inv _ _ _ _ Hin)
      as (i' & j' & t1 & t2 & _ & _ & Hij' & _ & -> & ->).
    destruct (var_eqb (i', j') (i, j)) eqn:E1.
    { apply var_eqb_eq in E1. injection E1 as -> ->.
      now apply holds_set_pair_sum. }
    destruct (var_eqb (i', j') (j, i)) eqn:E2.
    { apply var_eqb_eq in E2. injection E2 as -> ->.
      now apply holds_set_pair_sum. }
    rewrite holds_set_pair_other; auto; simpl.
    + now rewrite E1, var_eqb_swap, E2.
    + now rewrite E2, var_eqb_swap, E1.
  - rewrite holds_set_pair_other; auto; simpl; apply var_eqb_neq; congruence.
  - exact (Hc _ Hin).
Qed.

(** *** The claims about the model *)

(** C4, as amended.  For two eligible trains at different indices [i] and
    [j]: if they conflict, the model contains [before(i,j) + before(j,i) = 1],
    so in every feasible assignment exactly one of the two holds.  If they do
    not conflict, no such constraint is in the model, and the only constraint
    on [before(i,j)] is priority dominance: when train [i] has the strictly
    higher priority and train [j] is less than 30 minutes further behind,
    every feasible assignment has [before(i,j)] true; otherwise
    [before(i,j)] can be changed freely in any feasible assignment. *)
Theorem C4_exclusivity_and_dominance
  (trains : list Train) (st : SystemState) (i j : nat) (ti tj : Train) :
  nth_error trains i = Some ti -> nth_error trains j = Some tj -> i <> j ->
  (_trains_compete_for_resource ti tj st = true ->
     In (SumEqOne (i, j) (j, i)) (constraints (precedence_model trains st))
     /\ forall a, feasible (precedence_model trains st) a ->
                  bool_value a (i, j) = negb (bool_value a (j, i)))
  /\ (_trains_compete_for_resource ti tj st = false ->
        ~ In (SumEqOne (i, j) (j, i)) (constraints (precedence_model trains st))
        /\ (dominates ti tj = true ->
              forall a, feasible (precedence_model trains st) a ->
                        bool_value a (i, j) = true)
        /\ (dominates ti tj = false ->
              forall a b, feasible (precedence_model trains st) a ->
                          feasible (precedence_model trains st)
                                   (set_bool a (i, j) b))).
Proof.
  intros Hi Hj Hij. split.
  - intros K.
    assert (Hin := exclusivity_in_model trains st i j ti tj Hi Hj Hij K).
    split; [exact Hin|]. intros a F. exact (feasible_exclusive _ _ _ _ F Hin).
  - intros K.
    assert (Hno : forall x y,
               In (SumEqOne x y) (constraints (precedence_model trains st)) ->
               x <> (i, j) /\ y <> (i, j)).
    { intros x y Hin.
      destruct (SumEqOne_in_model_inv _ _ _ _ Hin)
        as (i' & j' & t1 & t2 & H1 & H2 & _ & K' & -> & ->).
      split; intros E; injection E as -> ->.
      - congruence.
      - rewrite compete_sym in K'. congruence. }
    split; [|split].
    + intros Hin. destruct (Hno _ _ Hin) as [E _]. now apply E.
    + intros D a F.
      exact (feasible_forced _ _ _ F
               (dominance_in_model trains st i j ti tj Hi Hj Hij D)).
    + intros D a b F. apply feasible_set_bool; [|exact F].
      intros c Hin. destruct c as [x y|x|k]; simpl.
      * destruct (Hno _ _ Hin) as [Ex Ey].
        apply orb_false_iff. split; now apply var_eqb_neq.
      * apply var_eqb_neq. intros ->.
        destruct (VarEqOne_in_model_inv _ _ _ _ Hin)
          as (t1 & t2 & H1 & H2 & _ & D').
        congruence.
      * reflexivity.
Qed.

Lemma C4_exclusivity_and_dominance_witness :
  (bool_value (Sample.assignment [(1, 0)%nat] 400) (0, 1)%nat
   = negb (bool_value (Sample.assignment [(1, 0)%nat] 400) (1, 0)%nat))
  /\ bool_value (Sample.assignment [(0, 1)%nat] 0) (0, 1)%nat = true
  /\ feasible (precedence_model Sample.apart (Sample.state_of Sample.apart))
       (set_bool (Sample.assignment [(0, 1)%nat] 0) (1, 0)%nat true).
Proof.
  split; [|split].
  - apply (C4_exclusivity_and_dominance
             Sample.overridden (Sample.state_of Sample.overridden) 0 1
             Sample.on_time_train Sample.late_freight);
      [reflexivity | reflexivity | lia | reflexivity | reflexivity].
  - apply (C4_exclusivity_and_dominance
             Sample.apart (Sample.state_of Sample.apart) 0 1
             Sample.express_a Sample.freight_b);
      [reflexivity | reflexivity | lia | reflexivity | reflexivity | reflexivity].
  - apply (C4_exclusivity_and_dominance
             Sample.apart (Sample.state_of Sample.apart) 1 0
             Sample.freight_b Sample.express_a);
      [reflexivity | reflexivity | lia | reflexivity | reflexivity | reflexivity].
Defined.

(** C4 as stated fails: an express and a freight train on two different
    sections do not conflict, yet every feasible assignment of the model has
    [before(0,1)] true, and turning it off in a feasible assignment leaves
    the model violated. *)
Lemma C4_counterexample :
  let st := Sample.state_of Sample.apart in
  let m := precedence_model Sample.apart st in
  _trains_compete_for_resource Sample.express_a Sample.freight_b st = false
  /\ feasible m (Sample.assignment [(0, 1)%nat] 0)
  /\ ~ feasible m (set_bool (Sample.assignment [(0, 1)%nat] 0) (0, 1)%nat false)
  /\ forall a, feasible m a -> bool_value a (0, 1)%nat = true.
Proof.
  simpl. split; [reflexivity|]. split; [reflexivity|]. split.
  - unfold feasible. vm_compute. discriminate.
  - intros a F. apply (feasible_forced _ _ _ F). vm_compute. auto.
Qed.

(** C5.  For eligible trains at indices [i] and [j] with train [i] of the
    strictly higher priority: if train [j]'s delay minus train [i]'s delay is
    less than 30, the model contains the constraint [before(i,j) = 1]; if the
    difference is 30 or more, the model contains neither [before(i,j) = 1]
    nor [before(j,i) = 1], and from any feasible assignment both orders of
    the pair are feasible. *)
Theorem C5_priority_dominance
  (trains : list Train) (st : SystemState) (i j : nat) (ti tj : Train) :
  nth_error trains i = Some ti -> nth_error trains j = Some tj ->
  (priority tj < priority ti)%Z ->
  ((delay_minutes tj - delay_minutes ti < 30)%Z ->
     In (VarEqOne (i, j)) (constraints (precedence_model trains st)))
  /\ ((30 <= delay_minutes tj - delay_minutes ti)%Z ->
        ~ In (VarEqOne (i, j)) (constraints (precedence_model trains st))
        /\ ~ In (VarEqOne (j, i)) (constraints (precedence_model trains st))
        /\ forall a b, feasible (precedence_model trains st) a ->
                       feasible (precedence_model trains st)
                                (set_pair a i j b (negb b))).
Proof.
  intros Hi Hj Hp.
  assert (Hij : i <> j).
  { intros ->. rewrite Hi in Hj. injection Hj as ->. lia. }
  split.
  - intros Hd. apply (dominance_in_model trains st i j ti tj); auto.
    unfold dominates. apply andb_true_iff. split; apply Z.ltb_lt; lia.
  - intros Hd.
    assert (N1 : ~ In (VarEqOne (i, j)) (constraints (precedence_model trains st))).
    { intros Hin.
      destruct (VarEqOne_in_model_inv _ _ _ _ Hin) as (t1 & t2 & H1 & H2 & _ & D).
      rewrite Hi in H1. rewrite Hj in H2. injection H1 as <-. injection H2 as <-.
      unfold dominates in D. apply andb_true_iff in D. destruct D as [_ D].
      apply Z.ltb_lt in D. lia. }
    assert (N2 : ~ In (VarEqOne (j, i)) (constraints (precedence_model trains st))).
    { intros Hin.
      destruct (VarEqOne_in_model_inv _ _ _ _ Hin) as (t1 & t2 & H1 & H2 & _ & D).
      rewrite Hj in H1. rewrite Hi in H2. injection H1 as <-. injection H2 as <-.
      unfold dominates in D. apply andb_true_iff in D. destruct D as [D _].
      apply Z.ltb_lt in D. lia. }
    split; [exact N1|]. split; [exact N2|].
    intros a b F. now apply feasible_set_pair.
Qed.

Lemma C5_priority_dominance_witness :
  In (VarEqOne (0, 1)%nat)
     (constraints (precedence_model Sample.apart (Sample.state_of Sample.apart)))
  /\ ~ In (VarEqOne (0, 1)%nat)
       (constraints (precedence_model Sample.overridden
                                      (Sample.state_of Sample.overridden))).
Proof.
  split.
  - apply (C5_priority_dominance
             Sample.apart (Sample.state_of Sample.apart) 0 1
             Sample.express_a Sample.freight_b);
      [reflexivity | reflexivity | simpl; lia | simpl; lia].
  - apply (C5_priority_dominance
             Sample.overridden (Sample.state_of Sample.overridden) 0 1
             Sample.on_time_train Sample.late_freight);
      [reflexivity | reflexivity | simpl; lia | simpl; lia].
Defined.

(** C10.  The model pins [total_delay], the minimised variable, to the
    constant [sum of (priority * 10) * delay_minutes] over the input trains:
    that constraint is in the model, every feasible assignment has this
    objective value, and so any two feasible assignments, whatever their
    [before] variables, have the same objective value. *)
Theorem C10_objective_is_constant
  (trains : list Train) (st : SystemState) (a1 a2 : Assignment) :
  feasible (precedence_model trains st) a1 ->
  feasible (precedence_model trains st) a2 ->
  In (IntVarEq (weighted_delay trains)) (constraints (precedence_model trains st))
  /\ objective_value a1 = weighted_delay trains
  /\ objective_value a2 = objective_value a1.
Proof.
  intros F1 F2.
  assert (Hin : In (IntVarEq (weighted_delay trains))
                   (constraints (precedence_model trains st))).
  { apply In_model. right; right. now rewrite sum_delay_terms. }
  assert (Hobj : forall a, feasible (precedence_model trains st) a ->
                           objective_value a = weighted_delay trains).
  { intros a F. apply feasible_iff in F. destruct F as [F _].
    specialize (F _ Hin). simpl in F. now apply Z.eqb_eq in F. }
  split; [exact Hin|]. split; [now apply Hobj|].
  now rewrite (Hobj a1), (Hobj a2).
Qed.

Lemma C10_objective_is_constant_witness :
  objective_value (Sample.assignment [(0, 1)%nat] 400) = 400%Z
  /\ objective_value (Sample.assignment [(1, 0)%nat] 400)
     = objective_value (Sample.assignment [(0, 1)%nat] 400).
Proof.
  apply (C10_objective_is_constant
           Sample.overridden (Sample.state_of Sample.overridden)
           (Sample.assignment [(0, 1)%nat] 400)
           (Sample.assignment [(1, 0)%nat] 400));
    reflexivity.
Defined.

(* ================================================================== *)
(** ** Trains, filtering and the heuristic order *)
(* ================================================================== *)

(** C6.  Whatever fields the caller supplies, a caller's own [priority]
    included, the constructed train has priority 4 for Special, 3 for
    Express, 2 for Passenger, 1 for Freight and 1 for any other value of
    [train_type]; the type itself is kept. *)
Theorem C6_priority_from_type (uuid4 : UUID) (self : Train) :
  priority (Train_post_init uuid4 self) = priority_of_type (train_type self)
  /\ train_type (Train_post_init uuid4 self) = train_type self.
Proof.
  split; [|reflexivity]. unfold Train_post_init. simpl.
  destruct (train_type self) as [[]|other]; reflexivity.
Qed.

Lemma status_in_running_delayed (t : Train) :
  existsb (TrainStatus_eqb (status t)) [RUNNING; DELAYED] = true
  <-> status t = RUNNING \/ status t = DELAYED.
Proof.
  simpl. destruct (status t); simpl; split; intros H; auto;
    try discriminate; destruct H; discriminate.
Qed.

Lemma needs_decision_iff (t : Train) : needs_decision t = true <-> eligible t.
Proof.
  unfold needs_decision, eligible.
  rewrite andb_true_iff, status_in_running_delayed.
  destruct (current_section t); intuition congruence.
Qed.

Lemma no_eligible_train (st : SystemState) :
  (forall t, In t (trains st) -> ~ eligible t) ->
  _get_trains_needing_decisions st = [].
Proof.
  intros H. unfold _get_trains_needing_decisions.
  induction (trains st) as [|t l IH]; simpl; [reflexivity|].
  destruct (needs_decision t) eqn:E.
  - apply needs_decision_iff in E. exfalso. apply (H t); simpl; auto.
  - apply IH. intros t' Hin. apply H. simpl; auto.
Qed.

(** C7.  When no train of the state is eligible, [optimize] returns the
    result with no decision, confidence 1.0, delay reduction 0, throughput
    improvement 0.0 and computation time 0.0, whatever the solver would do
    with a model, raising included: the solver is not called. *)
Theorem C7_no_eligible_train
  (self : RailwayOptimizer) (rt : Runtime) (st : SystemState) :
  (forall t, In t (trains st) -> ~ eligible t) ->
  optimize self rt st
  = Ok {| decisions := [];
          total_delay_reduction := 0;
          throughput_improvement := 0;
          confidence_score := 1;
          computation_time := 0 |}.
Proof.
  intros H. unfold optimize, optimize_body.
  rewrite (no_eligible_train st H). reflexivity.
Qed.

Lemma C7_no_eligible_train_witness :
  optimize Sample.optimizer Sample.solver_raising
           (Sample.state_of [Sample.stopped_train; Sample.cancelled_train;
                             Sample.unplaced_train])
  = Ok {| decisions := [];
          total_delay_reduction := 0;
          throughput_improvement := 0;
          confidence_score := 1;
          computation_time := 0 |}.
Proof.
  apply C7_no_eligible_train.
  intros t [<-|[<-|[<-|[]]]] [[E|E] S]; simpl in *; congruence.
Defined.

Lemma tuple_ge_total (a b : Z * Z) : tuple_ge a b = false -> tuple_ge b a = true.
Proof.
  unfold tuple_ge. destruct a as [p m], b as [q n]. simpl. intros H.
  apply orb_false_iff in H. destruct H as [H1 H2].
  apply Z.ltb_ge in H1. apply andb_false_iff in H2.
  apply orb_true_iff.
  destruct (Z.eq_dec p q) as [->|Hpq].
  - right. rewrite Z.eqb_refl. simpl. apply Z.leb_le.
    destruct H2 as [H2|H2]; [rewrite Z.eqb_refl in H2; discriminate|].
    apply Z.leb_gt in H2. lia.
  - left. apply Z.ltb_lt. lia.
Qed.

Lemma chain_impl (A : Type) (R S : A -> A -> Prop) (l : list A) :
  (forall x y, R x y -> S x y) -> chain R l -> chain S l.
Proof. intros H. induction 1; constructor; auto. Qed.

(** What the heuristic sort does: the trains are rearranged so that each is
    followed by one of lower priority, or of the same priority and at least
    as much delay. *)
Lemma sorted_trains_order (trains : list Train) :
  Permutation (sorted_trains trains) trains
  /\ chain heuristic_order (sorted_trains trains).
Proof.
  split; [apply sorted_by_perm|].
  apply chain_impl with
    (R := fun x y => tuple_ge (heuristic_key x) (heuristic_key y) = true).
  - intros x y H. unfold tuple_ge, heuristic_key, heuristic_order in *.
    simpl in H. apply orb_true_iff in H. destruct H as [H|H].
    + left. now apply Z.ltb_lt.
    + apply andb_true_iff in H. destruct H as [E L].
      apply Z.eqb_eq in E. apply Z.leb_le in L. right. split; [exact E|lia].
  - apply sorted_by_chain. intros a b. apply tuple_ge_total.
Qed.

(** C2, at the input of [test_optimize_with_delays] (two express trains on
    one section, delays 0 and 30): whichever way round the trains are
    given, the heuristic puts the train with delay 0 first, so that one
    is told to proceed and the train 30 minutes late is told to wait. *)
Theorem C2_heuristic_prefers_smaller_delay :
  sorted_trains [Sample.on_time_train; Sample.delayed_train]
  = [Sample.on_time_train; Sample.delayed_train]
  /\ sorted_trains [Sample.delayed_train; Sample.on_time_train]
     = [Sample.on_time_train; Sample.delayed_train]
  /\ map (fun c => (delay_minutes (arg_train c), arg_action c))
         (heuristic_calls [Sample.delayed_train; Sample.on_time_train])
     = [(0%Z, "proceed"); (30%Z, "wait")].
Proof. repeat split. Qed.

(* ================================================================== *)
(** ** The calls [Decision(...)] and the top-level fallback *)
(* ================================================================== *)

(** None of the calls that the optimizer makes passes [id]. *)
Lemma solution_call_omits_id (e : entry) : arg_id (solution_call e) = Omitted.
Proof. unfold solution_call. destruct (entry_position e =? 0)%nat; reflexivity. Qed.

Lemma heuristic_call_omits_id (p : nat * Train) : arg_id (heuristic_call p) = Omitted.
Proof. destruct p as [i t]. simpl. destruct (i =? 0)%nat; reflexivity. Qed.

Lemma Decision_new_omitted (uuid4 : UUID) (c : DecisionCall) :
  arg_id c = Omitted -> Decision_new uuid4 c = Raise missing_id.
Proof. unfold Decision_new. now intros ->. Qed.

Lemma for_each_first_raises
  (A B : Type) (f : A -> exn B) (e : PyException) (l : list A) :
  l <> [] -> (forall x, In x l -> f x = Raise e) -> for_each f l = Raise e.
Proof.
  intros Hne Hf. destruct l as [|x l]; [contradiction|].
  simpl. rewrite Hf; simpl; auto.
Qed.

(** The handler of [optimize] runs exactly when the body of the [try]
    raises. *)
Lemma optimize_falls_back
  (self : RailwayOptimizer) (rt : Runtime) (st : SystemState) (e : PyException) :
  optimize_body self rt st = Raise e ->
  optimize self rt st = _generate_fallback_decisions rt st.
Proof. unfold optimize. now intros ->. Qed.

(** The calls of the fallback: one per train whose status is Running or
    Delayed, whatever its section, each with action "proceed", the fallback
    reason and confidence 0.3. *)
Lemma fallback_calls_spec (st : SystemState) :
  map arg_train (fallback_calls st) = filter running_or_delayed (trains st)
  /\ forall c, In c (fallback_calls st) ->
       arg_action c = "proceed"
       /\ arg_reason c = "Fallback: proceed with caution"
       /\ arg_confidence c = 3 # 10
       /\ arg_id c = Omitted.
Proof.
  unfold fallback_calls. split.
  - rewrite map_map. simpl. apply map_id.
  - intros c Hin. apply in_map_iff in Hin. destruct Hin as [t [<- _]].
    repeat split.
Qed.

(** With no Running or Delayed train the fallback returns its result. *)
Lemma fallback_without_running_train (rt : Runtime) (st : SystemState) :
  filter running_or_delayed (trains st) = [] ->
  _generate_fallback_decisions rt st
  = Ok {| decisions := [];
          total_delay_reduction := 0;
          throughput_improvement := 0;
          confidence_score := 3 # 10;
          computation_time := 0 |}.
Proof.
  intros H. unfold _generate_fallback_decisions, fallback_calls.
  rewrite H. reflexivity.
Qed.

(** With a Running or Delayed train the first call [Decision(...)] of the
    fallback raises, and nothing catches it. *)
Lemma fallback_with_running_train (rt : Runtime) (st : SystemState) :
  filter running_or_delayed (trains st) <> [] ->
  _generate_fallback_decisions rt st = Raise missing_id.
Proof.
  intros H. unfold _generate_fallback_decisions.
  rewrite (for_each_first_raises _ _ _ missing_id); [reflexivity| |].
  - unfold fallback_calls. destruct (filter _ _); [contradiction|discriminate].
  - intros c Hin. apply Decision_new_omitted.
    now apply (proj2 (fallback_calls_spec st)).
Qed.

(** C1, at a state with one Running express train and a solver that raises:
    the handler of [optimize] runs [_generate_fallback_decisions], whose
    call [Decision(...)] passes no [id]; the [TypeError] leaves [optimize]. *)
Theorem C1_fallback_raises :
  optimize_body Sample.optimizer Sample.solver_raising
                (Sample.state_of [Sample.express_a])
  = Raise (SolverError "injected fault")
  /\ optimize Sample.optimizer Sample.solver_raising
              (Sample.state_of [Sample.express_a])
     = Raise missing_id.
Proof. split; reflexivity. Qed.

(** The two functions that build the decisions make their first call
    [Decision(...)] for the first train of their order; it raises, and the
    loop ends there. *)
Lemma solution_calls_length (a : Assignment) (trains : list Train) :
  List.length (solution_calls a trains) = List.length trains.
Proof.
  unfold solution_calls, precedence_order. rewrite length_map.
  rewrite (Permutation_length (sorted_by_perm _ _ _)), length_map.
  unfold enumerate. rewrite length_combine, length_seq. apply Nat.min_id.
Qed.

Lemma heuristic_calls_length (trains : list Train) :
  List.length (heuristic_calls trains) = List.length trains.
Proof.
  unfold heuristic_calls, sorted_trains. rewrite length_map.
  unfold enumerate. rewrite length_combine, length_seq, Nat.min_id.
  apply Permutation_length, sorted_by_perm.
Qed.

Lemma calls_raise (uuid4 : UUID) (calls : list DecisionCall) :
  calls <> [] -> (forall c, In c calls -> arg_id c = Omitted) ->
  for_each (Decision_new uuid4) calls = Raise missing_id.
Proof.
  intros Hne H. apply for_each_first_raises; [exact Hne|].
  intros c Hin. now apply Decision_new_omitted, H.
Qed.

Lemma extract_decisions_raises
  (rt : Runtime) (a : Assignment) (trains : list Train) (st : SystemState) :
  trains <> [] ->
  _extract_decisions_from_solution rt a trains st = Raise missing_id.
Proof.
  intros Hne. unfold _extract_decisions_from_solution. apply calls_raise.
  - intros E. apply (f_equal (@List.length _)) in E.
    rewrite solution_calls_length in E.
    destruct trains; [contradiction|discriminate].
  - intros c Hin. apply in_map_iff in Hin. destruct Hin as [x [<- _]].
    apply solution_call_omits_id.
Qed.

Lemma heuristic_decisions_raises
  (rt : Runtime) (trains : list Train) (st : SystemState) :
  trains <> [] ->
  _generate_heuristic_decisions rt trains st = Raise missing_id.
Proof.
  intros Hne. unfold _generate_heuristic_decisions. apply calls_raise.
  - intros E. apply (f_equal (@List.length _)) in E.
    rewrite heuristic_calls_length in E.
    destruct trains; [contradiction|discriminate].
  - intros c Hin. apply in_map_iff in Hin. destruct Hin as [x [<- _]].
    apply heuristic_call_omits_id.
Qed.

(** C3, at two express trains on one section with delays 0 and 30.  With the
    feasible values [before(0,1) = 1] the second train has rank 1, and it is
    at index 1 of the heuristic order, so on either path the claim expects a
    "wait" decision for it.  Both functions raise the [TypeError] of their
    first call [Decision(...)], the one for the train of rank 0, and build
    no decision for the train of rank 1. *)
Theorem C3_no_wait_decision_is_built :
  feasible (precedence_model Sample.contested (Sample.state_of Sample.contested))
           (Sample.assignment [(0, 1)%nat] 900)
  /\ map (fun e => (entry_position e, entry_index e))
         (precedence_order (Sample.assignment [(0, 1)%nat] 900) Sample.contested)
     = [(0, 0); (1, 1)]%nat
  /\ _extract_decisions_from_solution
       (Sample.solver_returning (Sample.assignment [(0, 1)%nat] 900))
       (Sample.assignment [(0, 1)%nat] 900)
       Sample.contested (Sample.state_of Sample.contested)
     = Raise missing_id
  /\ sorted_trains Sample.contested
     = [Sample.on_time_train; Sample.delayed_train]
  /\ _generate_heuristic_decisions
       (Sample.solver_returning (Sample.assignment [(0, 1)%nat] 900))
       Sample.contested (Sample.state_of Sample.contested)
     = Raise missing_id.
Proof. repeat split. Qed.

(* ================================================================== *)
(** ** Ranks from a solved model *)
(* ================================================================== *)

(** The entries of [precedence_order] are the triples
    [(position, i, trains[i])]. *)
Lemma precedence_order_entries (a : Assignment) (trains : list Train) (e : entry) :
  In e (precedence_order a trains)
  <-> exists i t, nth_error trains i = Some t
                  /\ e = (position_of a (List.length trains) i, i, t).
Proof.
  unfold precedence_order. split.
  - intros H. apply (Permutation_in _ (sorted_by_perm _ _ _)) in H.
    apply in_map_iff in H. destruct H as [[i t] [<- Hin]].
    apply In_enumerate in Hin. now exists i, t.
  - intros (i & t & Hi & ->).
    apply (Permutation_in _ (Permutation_sym (sorted_by_perm _ _ _))).
    apply in_map_iff. exists (i, t). split; [reflexivity|].
    now apply In_enumerate.
Qed.

Lemma Value_is_one (a : Assignment) (v : BoolVar) :
  (Value a v =? 1)%Z = bool_value a v.
Proof. unfold Value. destruct (bool_value a v); reflexivity. Qed.


(** C8, at two express trains on one section with delays 0 and 30 and a
    solver that reports the feasible values [before(0,1) = 1] as optimal.
    The claim expects a decision list with one "proceed" and one "wait";
    [_solve_precedence_problem] raises the [TypeError] of the first call
    [Decision(...)], no decision list is produced, and [optimize] raises. *)
Theorem C8_no_decision_list_is_produced :
  feasible (precedence_model Sample.contested (Sample.state_of Sample.contested))
           (Sample.assignment [(0, 1)%nat] 900)
  /\ _get_trains_needing_decisions (Sample.state_of Sample.contested)
     = Sample.contested
  /\ _solve_precedence_problem
       Sample.optimizer
       (Sample.solver_returning (Sample.assignment [(0, 1)%nat] 900))
       Sample.contested (Sample.state_of Sample.contested)
     = Raise missing_id
  /\ optimize
       Sample.optimizer
       (Sample.solver_returning (Sample.assignment [(0, 1)%nat] 900))
       (Sample.state_of Sample.contested)
     = Raise missing_id.
Proof. repeat split. Qed.

(* ================================================================== *)
(** ** The confidence score *)
(* ================================================================== *)

Lemma sum_Q_from (l : list Q) (start : Q) :
  fold_left Qplus l start == start + fold_right Qplus 0 l.
Proof.
  revert start; induction l as [|x l IH]; intros start; simpl.
  - ring.
  - rewrite IH. ring.
Qed.

Lemma sum_Q_fold_right (l : list Q) : sum_Q l == fold_right Qplus 0 l.
Proof. unfold sum_Q. rewrite sum_Q_from. ring. Qed.

Lemma of_nat_succ (n : nat) : of_nat (S n) == of_nat n + 1.
Proof.
  unfold of_nat. rewrite Nat2Z.inj_succ, <- Z.add_1_r, inject_Z_plus. reflexivity.
Qed.

Lemma of_nat_nonneg (n : nat) : 0 <= of_nat n.
Proof.
  unfold of_nat. change 0 with (inject_Z 0). rewrite <- Zle_Qle. lia.
Qed.

Lemma sum_of_unit_interval (l : list Q) :
  (forall x, In x l -> 0 <= x <= 1) ->
  0 <= fold_right Qplus 0 l <= of_nat (List.length l).
Proof.
  induction l as [|x l IH]; intros H; simpl.
  - split; [apply Qle_refl|apply of_nat_nonneg].
  - rewrite of_nat_succ.
    destruct IH as [IH1 IH2]; [intros y Hy; apply H; simpl; auto|].
    destruct (H x) as [H1 H2]; [simpl; auto|].
    split.
    + replace 0 with (0 + 0) by reflexivity. now apply Qplus_le_compat.
    + rewrite Qplus_comm. now apply Qplus_le_compat.
Qed.

Lemma mean_of_unit_interval (l : list Q) :
  l <> [] -> (forall x, In x l -> 0 <= x <= 1) ->
  0 <= arithmetic_mean l <= 1.
Proof.
  intros Hne H. destruct (sum_of_unit_interval l H) as [S0 S1].
  assert (Hpos : 0 < of_nat (List.length l)).
  { destruct l as [|x l]; [contradiction|]. simpl List.length.
    rewrite of_nat_succ. pose proof (of_nat_nonneg (List.length l)) as P.
    apply Qle_lt_trans with (of_nat (List.length l) + 0).
    - now rewrite Qplus_0_r.
    - apply Qplus_lt_r. reflexivity. }
  unfold arithmetic_mean. split.
  - apply Qle_shift_div_l; [exact Hpos|]. now rewrite Qmult_0_l.
  - apply Qle_shift_div_r; [exact Hpos|]. now rewrite Qmult_1_l.
Qed.

Lemma complexity_factor_bounds (n : nat) :
  0 <= Qmin 1 (of_nat n / 20) <= 1.
Proof.
  split; [|apply Q.le_min_l].
  apply Q.min_glb; [discriminate|].
  apply Qle_shift_div_l; [reflexivity|].
  rewrite Qmult_0_l. apply of_nat_nonneg.
Qed.

Lemma calculate_confidence_mean (decisions : list Decision) (st : SystemState) :
  decisions <> [] ->
  _calculate_confidence decisions st
  == arithmetic_mean (map confidence decisions)
     * Qmin 1 (of_nat (List.length (trains st)) / 20).
Proof.
  intros Hne. destruct decisions as [|d ds]; [contradiction|].
  unfold _calculate_confidence, arithmetic_mean.
  rewrite sum_Q_fold_right, length_map. reflexivity.
Qed.

(** X22.  For every list of decisions whose confidences lie between 0 and
    1, and every number of trains, the confidence score lies between 0 and
    1; for the empty list it is 1. *)
Theorem confidence_score_bounds (decisions : list Decision) (st : SystemState) :
  (forall d, In d decisions -> 0 <= confidence d <= 1) ->
  0 <= _calculate_confidence decisions st <= 1
  /\ (decisions = [] -> _calculate_confidence decisions st = 1).
Proof.
  intros H. split; [|now intros ->].
  destruct decisions as [|d0 ds]; [split; discriminate|].
  assert (Hne : d0 :: ds <> []) by discriminate.
  pose proof (calculate_confidence_mean (d0 :: ds) st Hne) as E.
  assert (M : 0 <= arithmetic_mean (map confidence (d0 :: ds)) <= 1).
  { apply mean_of_unit_interval; [discriminate|].
    intros x Hx. apply in_map_iff in Hx. destruct Hx as [d [<- Hd]]. auto. }
  pose proof (complexity_factor_bounds (List.length (trains st))) as B.
  rewrite E. split.
  - apply Qmult_le_0_compat; tauto.
  - apply Qle_trans with (1 * 1);
      [apply Qmult_le_compat_nonneg; tauto | discriminate].
Qed.

Lemma confidence_score_bounds_witness :
  0 <= _calculate_confidence
         [Sample.decision_with (9 # 10); Sample.decision_with (8 # 10)]
         (Sample.state_of Sample.apart) <= 1.
Proof.
  apply confidence_score_bounds.
  intros d [<-|[<-|[]]]; simpl; split; discriminate.
Defined.

(* ================================================================== *)
(** ** Further properties: orders and ranks *)
(* ================================================================== *)

Lemma insert_by_filter
  (A : Type) (before : A -> A -> bool) (P : A -> bool) (x : A) (l : list A) :
  (forall y, before x y = false -> P x = true -> P y = false) ->
  filter P (insert_by before x l) = filter P (x :: l).
Proof.
  intros H. induction l as [|y l IH]; [reflexivity|].
  simpl. destruct (before x y) eqn:B; [reflexivity|].
  simpl. simpl in IH. rewrite IH. specialize (H y B).
  destruct (P x); [|reflexivity].
  now rewrite (H eq_refl).
Qed.

(** The sort keeps the elements of one class in their original order, for
    every class [P] that an inversion never splits. *)
Lemma sorted_by_stable
  (A : Type) (before : A -> A -> bool) (P : A -> bool) (l : list A) :
  (forall x y, before x y = false -> P x = true -> P y = false) ->
  filter P (sorted_by before l) = filter P l.
Proof.
  intros H. induction l as [|x l IH]; [reflexivity|].
  simpl. rewrite insert_by_filter; [|now apply H].
  simpl. now rewrite IH.
Qed.

(** X1.  The heuristic order is a rearrangement of the trains in which each
    train is followed by one of lower priority, or of equal priority and at
    least its delay; trains with the same priority and the same delay keep
    the order in which they were given. *)
Theorem heuristic_sort_spec (trains : list Train) (z : Train) :
  Permutation (sorted_trains trains) trains
  /\ chain heuristic_order (sorted_trains trains)
  /\ filter (same_key z) (sorted_trains trains) = filter (same_key z) trains.
Proof.
  destruct (sorted_trains_order trains) as [P C].
  split; [exact P|]. split; [exact C|].
  apply sorted_by_stable. intros x y B Px.
  unfold same_key in *. apply andb_true_iff in Px. destruct Px as [E1 E2].
  apply Z.eqb_eq in E1, E2.
  destruct ((priority z =? priority y)%Z && (delay_minutes z =? delay_minutes y)%Z)
    eqn:Py; [|reflexivity].
  apply andb_true_iff in Py. destruct Py as [F1 F2]. apply Z.eqb_eq in F1, F2.
  unfold tuple_ge, heuristic_key in B. simpl in B.
  apply orb_false_iff in B. destruct B as [_ B].
  replace (priority x) with (priority y) in B by congruence.
  replace (delay_minutes x) with (delay_minutes y) in B by congruence.
  rewrite Z.eqb_refl, Z.leb_refl in B. discriminate.
Qed.

(** X2.  From any values of the solver, the entries of the precedence order
    are the triples (rank, index, train) rearranged by ascending rank, and
    trains of equal rank stay in index order. *)
Theorem precedence_order_spec (a : Assignment) (trains : list Train) (r : nat) :
  Permutation (precedence_order a trains) (unsorted_entries a trains)
  /\ chain (fun x y => (entry_position x <= entry_position y)%nat)
           (precedence_order a trains)
  /\ filter (fun e => (entry_position e =? r)%nat) (precedence_order a trains)
     = filter (fun e => (entry_position e =? r)%nat) (unsorted_entries a trains).
Proof.
  unfold precedence_order. fold (unsorted_entries a trains).
  split; [apply sorted_by_perm|]. split.
  - apply chain_impl with
      (R := fun x y => (entry_position x <=? entry_position y)%nat = true).
    + intros x y H. now apply Nat.leb_le.
    + apply sorted_by_chain. intros x y H.
      apply Nat.leb_gt in H. apply Nat.leb_le. lia.
  - apply sorted_by_stable. intros x y B Px.
    apply Nat.leb_gt in B. apply Nat.eqb_eq in Px. apply Nat.eqb_neq. lia.
Qed.

Lemma count_excluding (f : nat -> bool) (i n s : nat) :
  (s <= i < s + n)%nat ->
  (List.length (filter (fun j => negb (i =? j)%nat && f j) (seq s n)) < n)%nat.
Proof.
  revert s; induction n as [|n IH]; intros s H; [lia|].
  simpl. destruct (Nat.eq_dec i s) as [->|Hne].
  - rewrite Nat.eqb_refl. simpl.
    pose proof (filter_length_le
                  (fun j => negb (s =? j)%nat && f j) (seq (S s) n)) as L.
    rewrite length_seq in L. lia.
  - assert (IH' := IH (S s)).
    destruct (negb (i =? s)%nat && f s); simpl; specialize (IH' ltac:(lia)); lia.
Qed.

(** X3.  The rank of a train among [n] eligible trains is at most [n - 1]:
    a wait reason never counts more trains than there are others. *)
Theorem rank_below_train_count (a : Assignment) (trains : list Train) (e : entry) :
  In e (precedence_order a trains) ->
  (entry_position e < List.length trains)%nat
  /\ (entry_index e < List.length trains)%nat.
Proof.
  intros H. apply precedence_order_entries in H.
  destruct H as (i & t & Hi & ->).
  assert (L : (i < List.length trains)%nat) by (apply nth_error_Some; congruence).
  unfold entry_position, entry_index. simpl. split; [|exact L].
  rewrite position_of_count. apply count_excluding. lia.
Qed.

Lemma rank_below_train_count_witness :
  (entry_position (1%nat, 1%nat, Sample.freight_b) < 2)%nat
  /\ (entry_index (1%nat, 1%nat, Sample.freight_b) < 2)%nat.
Proof.
  apply (rank_below_train_count (Sample.assignment [(0, 1)%nat] 0) Sample.apart).
  vm_compute. auto.
Defined.



Lemma position_of_zero (a : Assignment) (n i : nat) :
  (forall j, (j < n)%nat -> j <> i -> bool_value a (j, i) = false) ->
  position_of a n i = 0%nat.
Proof.
  intros H. rewrite position_of_count.
  destruct (filter _ _) as [|j l] eqn:E; [reflexivity|].
  assert (Hin : In j (j :: l)) by (simpl; auto).
  rewrite <- E in Hin. apply filter_In in Hin. destruct Hin as [Hs Hc].
  apply in_seq in Hs. apply andb_true_iff in Hc. destruct Hc as [Hne Hv].
  apply negb_true_iff, Nat.eqb_neq in Hne.
  rewrite Value_is_one, H in Hv; [discriminate|lia|congruence].
Qed.

(** X5.  In every feasible assignment a train that conflicts with every
    other eligible train and dominates each of them has rank 0 and is told
    to proceed towards its current section. *)
Theorem dominating_train_proceeds
  (trains : list Train) (st : SystemState) (a : Assignment)
  (i : nat) (ti : Train) (e : entry) :
  feasible (precedence_model trains st) a ->
  nth_error trains i = Some ti ->
  (forall j tj, j <> i -> nth_error trains j = Some tj ->
     _trains_compete_for_resource ti tj st = true /\ dominates ti tj = true) ->
  In e (precedence_order a trains) -> entry_index e = i ->
  entry_position e = 0%nat
  /\ arg_action (solution_call e) = "proceed"
  /\ arg_target_section (solution_call e) = current_section ti.
Proof.
  intros F Hi Hall He Hidx.
  apply precedence_order_entries in He. destruct He as (k & t & Hk & ->).
  unfold entry_index in Hidx. simpl in Hidx. subst k.
  assert (t = ti) by congruence. subst t.
  assert (Z0 : position_of a (List.length trains) i = 0%nat).
  { apply position_of_zero. intros j Hj Hne.
    destruct (nth_error trains j) as [tj|] eqn:Ej;
      [|apply nth_error_None in Ej; lia].
    destruct (Hall j tj Hne Ej) as [K D].
    pose proof (feasible_forced _ _ _ F
      (dominance_in_model trains st i j ti tj Hi Ej (not_eq_sym Hne) D)) as B.
    pose proof (feasible_exclusive _ _ _ _ F
      (exclusivity_in_model trains st i j ti tj Hi Ej (not_eq_sym Hne) K)) as X.
    rewrite B in X. destruct (bool_value a (j, i)); [discriminate|reflexivity]. }
  unfold entry_position. simpl. split; [exact Z0|].
  unfold solution_call, entry_position, entry_train. simpl. rewrite Z0.
  split; reflexivity.
Qed.

Lemma dominating_train_proceeds_witness :
  entry_position (0%nat, 0%nat, Sample.on_time_train) = 0%nat
  /\ arg_action (solution_call (0%nat, 0%nat, Sample.on_time_train)) = "proceed"
  /\ arg_target_section (solution_call (0%nat, 0%nat, Sample.on_time_train))
     = current_section Sample.on_time_train.
Proof.
  apply (dominating_train_proceeds
           [Sample.on_time_train; Sample.stopped_train]
           (Sample.state_of [Sample.on_time_train; Sample.stopped_train])
           (Sample.assignment [(0, 1)%nat] 0) 0);
    [ reflexivity | reflexivity | | vm_compute; auto | reflexivity ].
  intros [|[|j]] tj Hne Hj; [congruence| |destruct j; discriminate].
  injection Hj as <-. split; reflexivity.
Defined.

(* ================================================================== *)
(** ** Further properties: the model, the metrics and [optimize] *)
(* ================================================================== *)

Lemma dominates_asym (t1 t2 : Train) :
  dominates t1 t2 = true -> dominates t2 t1 = false.
Proof.
  unfold dominates. intros H. apply andb_true_iff in H. destruct H as [H _].
  apply Z.ltb_lt in H. apply andb_false_iff. left. apply Z.ltb_ge. lia.
Qed.

Lemma precedence_model_domain (trains : list Train) (st : SystemState) (a : Assignment) :
  in_domain (precedence_model trains st) a
  = (0 <=? int_value a)%Z && (int_value a <=? 10000)%Z.
Proof. reflexivity. Qed.

Lemma canonical_assignment_holds (trains : list Train) (st : SystemState) (c : Constraint) :
  In c (constraints (precedence_model trains st)) ->
  holds (canonical_assignment trains) c = true.
Proof.
  intros H. apply In_model in H. destruct H as [H|[H|H]].
  - apply In_exclusivity in H.
    destruct H as (i & j & t1 & t2 & H1 & H2 & Hij & _ & ->).
    simpl. unfold Value, canonical_assignment. simpl. rewrite H1, H2.
    destruct (dominates t1 t2) eqn:D12.
    + rewrite (dominates_asym _ _ D12). reflexivity.
    + destruct (dominates t2 t1) eqn:D21; [reflexivity|]. simpl.
      destruct (i <? j)%nat eqn:L1, (j <? i)%nat eqn:L2; try reflexivity.
      * apply Nat.ltb_lt in L1, L2. lia.
      * apply Nat.ltb_ge in L1, L2. lia.
  - apply In_dominance in H.
    destruct H as (i & j & t1 & t2 & H1 & H2 & _ & D & ->).
    simpl. unfold Value, canonical_assignment. simpl. now rewrite H1, H2, D.
  - subst c. simpl. rewrite sum_delay_terms. apply Z.eqb_refl.
Qed.

(** X8.  The model has a feasible assignment exactly when the weighted delay
    of the eligible trains lies between 0 and 10000, the bounds of
    [total_delay]: beyond them no order of the trains satisfies the model. *)
Theorem model_feasible_iff (trains : list Train) (st : SystemState) :
  (exists a, feasible (precedence_model trains st) a)
  <-> (0 <= weighted_delay trains <= 10000)%Z.
Proof.
  split.
  - intros [a F]. pose proof F as F'. apply feasible_iff in F'.
    destruct F' as [Hc Hd].
    assert (E : int_value a = weighted_delay trains).
    { assert (Hin : In (IntVarEq (weighted_delay trains))
                       (constraints (precedence_model trains st))).
      { apply In_model. right; right. now rewrite sum_delay_terms. }
      specialize (Hc _ Hin). simpl in Hc. now apply Z.eqb_eq in Hc. }
    rewrite precedence_model_domain, E in Hd.
    apply andb_true_iff in Hd. destruct Hd as [L U].
    apply Z.leb_le in L, U. lia.
  - intros [L U]. exists (canonical_assignment trains).
    apply feasible_iff. split.
    + intros c Hin. now apply (canonical_assignment_holds trains st).
    + rewrite precedence_model_domain. simpl.
      apply andb_true_iff. split; apply Z.leb_le; lia.
Qed.

(** X9.  The model depends on the eligible trains alone: two system states,
    whatever their sections, track counts and stations, give the same
    model. *)
Theorem model_ignores_system_state (trains : list Train) (st1 st2 : SystemState) :
  precedence_model trains st1 = precedence_model trains st2.
Proof.
  unfold precedence_model. rewrite !add_capacity_constraints_id. reflexivity.
Qed.

Lemma loop_bool_vars_kept
  (A : Type) (step : CpModel -> A -> CpModel) :
  (forall m x, bool_vars (step m x) = bool_vars m) ->
  forall l m, bool_vars (fold_left step l m) = bool_vars m.
Proof.
  intros Hstep. induction l as [|x l IH]; intros m; simpl; [reflexivity|].
  now rewrite IH, Hstep.
Qed.

Lemma loop_bool_vars
  (A : Type) (step : CpModel -> A -> CpModel) (added : A -> list BoolVar) :
  (forall m x, bool_vars (step m x) = bool_vars m ++ added x) ->
  forall l m, bool_vars (fold_left step l m) = bool_vars m ++ flat_map added l.
Proof.
  intros Hstep. induction l as [|x l IH]; intros m; simpl.
  - now rewrite app_nil_r.
  - rewrite IH, Hstep, <- app_assoc. reflexivity.
Qed.

Lemma precedence_model_bool_vars (trains : list Train) (st : SystemState) :
  bool_vars (precedence_model trains st)
  = flat_map (fun p : (nat * Train) * (nat * Train) =>
                if negb (fst (fst p) =? fst (snd p))%nat
                then [(fst (fst p), fst (snd p))] else [])
             (index_pairs trains).
Proof.
  unfold precedence_model. rewrite add_capacity_constraints_id. simpl.
  unfold _add_priority_constraints, _add_precedence_constraints.
  rewrite loop_bool_vars_kept.
  2:{ intros m [[i t1] [j t2]].
      destruct (negb (i =? j)%nat && (priority t2 <? priority t1)%Z);
        [destruct (delay_minutes t2 - delay_minutes t1 <? 30)%Z|]; reflexivity. }
  rewrite loop_bool_vars_kept.
  2:{ intros m [[i t1] [j t2]].
      destruct (negb (i =? j)%nat);
        [destruct (_trains_compete_for_resource t1 t2 st)|]; reflexivity. }
  unfold new_precedence_vars.
  rewrite (loop_bool_vars _ _
             (fun p : (nat * Train) * (nat * Train) =>
                if negb (fst (fst p) =? fst (snd p))%nat
                then [(fst (fst p), fst (snd p))] else [])).
  - reflexivity.
  - intros m [[i t1] [j t2]]. simpl.
    destruct (negb (i =? j)%nat); simpl; now rewrite ?app_nil_r.
Qed.

Lemma In_bool_vars (trains : list Train) (st : SystemState) (i j : nat) :
  In (i, j) (bool_vars (precedence_model trains st))
  <-> (i < List.length trains)%nat /\ (j < List.length trains)%nat /\ i <> j.
Proof.
  rewrite precedence_model_bool_vars, in_flat_map. split.
  - intros [[[i' t1] [j' t2]] [Hp Hin]]. apply In_index_pairs in Hp.
    simpl in Hin. destruct (i' =? j')%nat eqn:E; simpl in Hin; [contradiction|].
    destruct Hin as [Hin|[]]. injection Hin as -> ->.
    apply Nat.eqb_neq in E. destruct Hp as [H1 H2].
    repeat split; try exact E; apply nth_error_Some; congruence.
  - intros (Li & Lj & Hij).
    destruct (nth_error trains i) as [t1|] eqn:E1;
      [|apply nth_error_None in E1; lia].
    destruct (nth_error trains j) as [t2|] eqn:E2;
      [|apply nth_error_None in E2; lia].
    exists ((i, t1), (j, t2)). split; [now apply In_index_pairs|].
    simpl. apply Nat.eqb_neq in Hij. rewrite Hij. simpl. auto.
Qed.

(** X10.  The model has one Boolean variable for each ordered pair of
    different train indices and no other, and every variable that occurs in
    a constraint of the model is one of them: no constraint looks up a key
    that [precedence_vars] lacks. *)
Theorem model_variables_declared (trains : list Train) (st : SystemState) :
  (forall i j, In (i, j) (bool_vars (precedence_model trains st))
               <-> (i < List.length trains)%nat
                   /\ (j < List.length trains)%nat /\ i <> j)
  /\ (forall c v, In c (constraints (precedence_model trains st)) ->
                  In v (variables_of c) ->
                  In v (bool_vars (precedence_model trains st))).
Proof.
  split; [intros i j; apply In_bool_vars|].
  intros c v Hc Hv.
  assert (Hlt : forall k t, nth_error trains k = Some t ->
                            (k < List.length trains)%nat).
  { intros k t E. apply nth_error_Some. congruence. }
  destruct c as [x y|x|k]; simpl in Hv.
  - destruct (SumEqOne_in_model_inv _ _ _ _ Hc)
      as (i & j & ti & tj & Hi & Hj & Hij & _ & -> & ->).
    destruct Hv as [<-|[<-|[]]]; apply In_bool_vars; eauto.
  - destruct x as [i j].
    destruct (VarEqOne_in_model_inv _ _ _ _ Hc) as (ti & tj & Hi & Hj & Hij & _).
    destruct Hv as [<-|[]]. apply In_bool_vars; eauto.
  - destruct Hv.
Qed.

Lemma of_nat_le (n m : nat) : (n <= m)%nat -> of_nat n <= of_nat m.
Proof. intros H. unfold of_nat. rewrite <- Zle_Qle. lia. Qed.

Lemma of_nat_pos (n : nat) : (0 < n)%nat -> 0 < of_nat n.
Proof.
  intros H. unfold of_nat. change 0 with (inject_Z 0). rewrite <- Zlt_Qlt. lia.
Qed.

(** X11.  The throughput improvement lies between 0 and 20 for every list
    of decisions; it is 0 for the empty list and 20 when the list is not
    empty and every decision is "proceed". *)
Theorem throughput_improvement_bounds (decisions : list Decision) :
  0 <= _calculate_throughput_improvement decisions <= 20
  /\ (decisions <> [] ->
      (forall d, In d decisions -> action d = "proceed") ->
      _calculate_throughput_improvement decisions == 20).
Proof.
  unfold _calculate_throughput_improvement.
  set (p := List.length (filter (fun d => String.eqb (action d) "proceed") decisions)).
  set (n := List.length decisions).
  assert (Hpn : (p <= n)%nat) by apply filter_length_le.
  destruct (n =? 0)%nat eqn:E.
  - split; [split; discriminate|].
    intros Hne _. apply Nat.eqb_eq in E. subst n.
    destruct decisions; [contradiction|discriminate].
  - apply Nat.eqb_neq in E.
    assert (Hn : 0 < of_nat n) by (apply of_nat_pos; lia).
    assert (R0 : 0 <= of_nat p / of_nat n).
    { apply Qle_shift_div_l; [exact Hn|]. rewrite Qmult_0_l. apply of_nat_nonneg. }
    assert (R1 : of_nat p / of_nat n <= 1).
    { apply Qle_shift_div_r; [exact Hn|]. rewrite Qmult_1_l. now apply of_nat_le. }
    split; [split|].
    + apply Qmult_le_0_compat; [exact R0|discriminate].
    + apply Qle_trans with (1 * 20); [|discriminate].
      apply Qmult_le_compat_r; [exact R1|discriminate].
    + intros _ Hall.
      assert (Ep : p = n).
      { subst p n. clear -Hall. induction decisions as [|d l IH]; [reflexivity|].
        simpl. rewrite (Hall d); [|simpl; auto]. simpl. f_equal.
        apply IH. intros d' Hd'. apply Hall. simpl; auto. }
      rewrite Ep. field. intros Z. rewrite Z in Hn. discriminate.
Qed.

Lemma throughput_improvement_bounds_witness :
  _calculate_throughput_improvement
    [Sample.decision_with (9 # 10); Sample.decision_with (8 # 10)] == 20.
Proof.
  apply throughput_improvement_bounds; [discriminate|].
  intros d [<-|[<-|[]]]; reflexivity.
Defined.

Lemma delay_reduction_from (decisions : list Decision) (start : Z) :
  (start + Z.of_nat (List.length (filter credited decisions))
   <= fold_left
        (fun (total : Z) (d : Decision) =>
           if credited d
           then (total + Z.min (delay_minutes (train d)) 10)%Z else total)
        decisions start
   <= start + 10 * Z.of_nat (List.length (filter credited decisions)))%Z.
Proof.
  revert start. induction decisions as [|d l IH]; intros start.
  - simpl. lia.
  - cbn [fold_left filter]. destruct (credited d) eqn:E.
    + unfold credited, is_delayed in E.
      apply andb_true_iff in E. destruct E as [_ E]. apply Z.ltb_lt in E.
      specialize (IH (start + Z.min (delay_minutes (train d)) 10)%Z).
      cbn [List.length]. lia.
    + specialize (IH start). lia.
Qed.

(** X12.  The delay reduction credits each "proceed" decision for a delayed
    train with at least 1 and at most 10 minutes and credits nothing else:
    it lies between the number of such decisions and ten times that
    number. *)
Theorem delay_reduction_bounds (decisions : list Decision) (st : SystemState) :
  (Z.of_nat (List.length (filter credited decisions))
   <= _calculate_delay_reduction decisions st
   <= 10 * Z.of_nat (List.length (filter credited decisions)))%Z.
Proof.
  unfold _calculate_delay_reduction.
  pose proof (delay_reduction_from decisions 0) as H.
  exact H.
Qed.

Lemma needing_decisions_iff (st : SystemState) (t : Train) :
  In t (_get_trains_needing_decisions st) <-> In t (trains st) /\ eligible t.
Proof.
  unfold _get_trains_needing_decisions.
  now rewrite filter_In, needs_decision_iff.
Qed.

(** X6.  [_extract_decisions_from_solution] returns the empty list when
    there is no train, and for every non-empty list of trains it raises the
    [TypeError] of its first call [Decision(...)], whatever values the
    solver reports: it never returns a decision. *)
Theorem extract_decisions_outcome
  (rt : Runtime) (a : Assignment) (trains : list Train) (st : SystemState) :
  _extract_decisions_from_solution rt a [] st = Ok []
  /\ (trains <> [] ->
      _extract_decisions_from_solution rt a trains st = Raise missing_id).
Proof. split; [reflexivity|apply extract_decisions_raises]. Qed.

Lemma extract_decisions_outcome_witness :
  _extract_decisions_from_solution
    (Sample.solver_returning (Sample.assignment [(0, 1)%nat] 0))
    (Sample.assignment [(0, 1)%nat] 0)
    Sample.apart (Sample.state_of Sample.apart)
  = Raise missing_id.
Proof. apply extract_decisions_outcome. discriminate. Defined.

(** X7.  [_generate_heuristic_decisions] returns the empty list when there
    is no train, and for every non-empty list of trains it raises the
    [TypeError] of its first call [Decision(...)]: it never returns a
    decision. *)
Theorem heuristic_decisions_outcome
  (rt : Runtime) (trains : list Train) (st : SystemState) :
  _generate_heuristic_decisions rt [] st = Ok []
  /\ (trains <> [] ->
      _generate_heuristic_decisions rt trains st = Raise missing_id).
Proof. split; [reflexivity|apply heuristic_decisions_raises]. Qed.

Lemma heuristic_decisions_outcome_witness :
  _generate_heuristic_decisions
    Sample.solver_raising Sample.contested (Sample.state_of Sample.contested)
  = Raise missing_id.
Proof. apply heuristic_decisions_outcome. discriminate. Defined.

Lemma solve_precedence_problem_raises
  (self : RailwayOptimizer) (rt : Runtime) (trains : list Train) (st : SystemState) :
  trains <> [] ->
  exists e, _solve_precedence_problem self rt trains st = Raise e.
Proof.
  intros Hne. unfold _solve_precedence_problem.
  destruct (cp_solve rt (time_limit_seconds self) (precedence_model trains st))
    as [[status a]|e]; cbn [Py.bind]; [|now exists e].
  exists missing_id.
  destruct (existsb (CpSolverStatus_eqb status) [OPTIMAL; FEASIBLE]).
  - now apply extract_decisions_raises.
  - now apply heuristic_decisions_raises.
Qed.

(** X14.  For a state with at least one eligible train [optimize] returns no
    result, whatever the solver does: the body of the [try] raises, the
    handler runs the fallback, and the fallback's first call [Decision(...)]
    raises the [TypeError] for the missing [id], which leaves [optimize]. *)
Theorem optimize_raises_with_eligible_train
  (self : RailwayOptimizer) (rt : Runtime) (st : SystemState) (t : Train) :
  In t (trains st) -> eligible t ->
  optimize self rt st = Raise missing_id.
Proof.
  intros Hin He.
  assert (Hn : In t (_get_trains_needing_decisions st))
    by (apply needing_decisions_iff; auto).
  assert (Hf : _generate_fallback_decisions rt st = Raise missing_id).
  { apply fallback_with_running_train. intros E.
    assert (Hr : In t (filter running_or_delayed (trains st))).
    { apply filter_In. split; [exact Hin|].
      apply status_in_running_delayed. exact (proj1 He). }
    rewrite E in Hr. destruct Hr. }
  unfold optimize, optimize_body.
  destruct (_get_trains_needing_decisions st) as [|x l] eqn:E; [destruct Hn|].
  destruct (solve_precedence_problem_raises self rt (x :: l) st) as [e Hr];
    [discriminate|].
  rewrite Hr. simpl. exact Hf.
Qed.

Lemma optimize_raises_with_eligible_train_witness :
  optimize Sample.optimizer
           (Sample.solver_returning (Sample.assignment [(0, 1)%nat] 0))
           (Sample.state_of Sample.apart)
  = Raise missing_id.
Proof.
  apply (optimize_raises_with_eligible_train _ _ _ Sample.freight_b).
  - simpl. auto.
  - split; [left; reflexivity | discriminate].
Defined.

(* ================================================================== *)
(** ** Further properties: the methods of the domain classes *)
(* ================================================================== *)

Lemma id_eqb_eq (a b : option UUID) : id_eqb a b = true <-> a = b.
Proof.
  destruct a as [x|], b as [y|]; simpl; split; intros H;
    try discriminate; try reflexivity.
  - apply N.eqb_eq in H. now subst.
  - injection H as ->. apply N.eqb_refl.
Qed.

(** X15.  A constructed train always has an identity and a priority between
    1 and 4; an identity that the caller supplied is kept; and running the
    construction step again on the constructed train changes nothing. *)
Theorem train_construction_invariants (uuid4 uuid4' : UUID) (self : Train) :
  train_id (Train_post_init uuid4 self) <> None
  /\ (1 <= priority (Train_post_init uuid4 self) <= 4)%Z
  /\ (train_id self <> None ->
      train_id (Train_post_init uuid4 self) = train_id self)
  /\ Train_post_init uuid4' (Train_post_init uuid4 self)
     = Train_post_init uuid4 self.
Proof.
  unfold Train_post_init. simpl. repeat split.
  - destruct (train_id self); discriminate.
  - destruct (train_type self) as [[]|other]; simpl; lia.
  - destruct (train_type self) as [[]|other]; simpl; lia.
  - destruct (train_id self); [reflexivity|congruence].
  - destruct (train_id self); reflexivity.
Qed.

Lemma train_construction_invariants_witness :
  train_id (Train_post_init 9%N Sample.express_a) = train_id Sample.express_a.
Proof.
  apply (train_construction_invariants 9%N 9%N Sample.express_a). discriminate.
Defined.

Lemma SectionStatus_eqb_eq (a b : SectionStatus) :
  SectionStatus_eqb a b = true <-> a = b.
Proof. destruct a, b; simpl; split; intros H; try discriminate; reflexivity. Qed.

(** X16.  A section accommodates a train exactly when its status is
    Available, fewer trains are on it than it has tracks, and the train's
    maximum speed does not exceed the section's.  A section without tracks
    accommodates no train, and a section that refuses a train still refuses
    it when one more train is on the section. *)
Theorem can_accommodate_spec (s : Section) (t : Train) (occupant : option UUID) :
  (can_accommodate s t = true
   <-> section_status s = AVAILABLE
       /\ (Z.of_nat (List.length (current_trains s)) < tracks s)%Z
       /\ (max_speed t <= max_speed_kmh s)%Z)
  /\ ((tracks s <= 0)%Z -> can_accommodate s t = false)
  /\ (can_accommodate s t = false ->
      can_accommodate (with_occupant s occupant) t = false).
Proof.
  assert (I : can_accommodate s t = true
              <-> section_status s = AVAILABLE
                  /\ (Z.of_nat (List.length (current_trains s)) < tracks s)%Z
                  /\ (max_speed t <= max_speed_kmh s)%Z).
  { unfold can_accommodate, is_available.
    rewrite !andb_true_iff, SectionStatus_eqb_eq, Z.ltb_lt, Z.leb_le. tauto. }
  split; [exact I|]. split.
  - intros H. apply not_true_is_false. intros E. apply I in E. lia.
  - intros H. apply not_true_is_false. intros E.
    unfold can_accommodate, is_available, with_occupant in E. simpl in E.
    rewrite !andb_true_iff, SectionStatus_eqb_eq, Z.ltb_lt, Z.leb_le in E.
    rewrite length_app in E. simpl in E.
    assert (can_accommodate s t = true) by (apply I; repeat split; try tauto; lia).
    congruence.
Qed.

Lemma can_accommodate_spec_witness :
  can_accommodate (with_occupant (Sample.section 10) (Some 1%N)) Sample.express_a
  = false.
Proof.
  apply (can_accommodate_spec (Sample.section 10) Sample.express_a (Some 1%N)).
  reflexivity.
Defined.

(** X17.  [calculate_delay] is never negative and does not depend on the
    time passed to it: with both departures set it is the number of whole
    minutes from the scheduled to the actual departure, and 0 when the train
    left early; with a departure missing it is 0. *)
Theorem calculate_delay_spec (self : Train) (current_time : datetime) :
  (0 <= calculate_delay self current_time)%Z
  /\ (forall s a,
        scheduled_departure self = Some s -> actual_departure self = Some a ->
        calculate_delay self current_time = Z.max 0 ((a - s) / 60))
  /\ (scheduled_departure self = None \/ actual_departure self = None ->
      calculate_delay self current_time = 0%Z).
Proof.
  assert (K : forall s a,
             scheduled_departure self = Some s -> actual_departure self = Some a ->
             calculate_delay self current_time = Z.max 0 ((a - s) / 60)).
  { intros s a Hs Ha. unfold calculate_delay. rewrite Hs, Ha.
    unfold int_of_float. simpl. rewrite Z.mul_1_r.
    destruct (Z_le_gt_dec 0 (a - s)) as [L|G].
    - rewrite Z.quot_div_nonneg by lia. reflexivity.
    - assert (Q1 : (Z.quot (a - s) 60 <= 0)%Z).
      { replace (a - s)%Z with (- (s - a))%Z by lia.
        rewrite Z.quot_opp_l by lia.
        pose proof (Z.quot_pos (s - a) 60). lia. }
      assert (Q2 : ((a - s) / 60 < 0)%Z)
        by (apply Z.div_lt_upper_bound; lia).
      lia. }
  split; [|split].
  - unfold calculate_delay.
    destruct (scheduled_departure self), (actual_departure self); lia.
  - exact K.
  - intros [H|H]; unfold calculate_delay; rewrite H;
      [|destruct (scheduled_departure self)]; reflexivity.
Qed.

Lemma calculate_delay_spec_witness :
  calculate_delay late_departure 0%Z = Z.max 0 ((1150 - 1000) / 60).
Proof.
  apply (calculate_delay_spec late_departure 0%Z); reflexivity.
Defined.

Lemma index_of_spec (x : Station) (l : list Station) :
  match index_of x l with
  | Some i =>
      exists pre cur post,
        l = pre ++ cur :: post /\ List.length pre = i
        /\ Station_eqb cur x = true
        /\ forall y, In y pre -> Station_eqb y x = false
  | None => forall y, In y l -> Station_eqb y x = false
  end.
Proof.
  induction l as [|y l IH]; simpl.
  - intros y [].
  - destruct (Station_eqb y x) eqn:E.
    + exists [], y, l. simpl. repeat split; auto. intros ? [].
    + destruct (index_of x l) as [i|].
      * destruct IH as (pre & cur & post & -> & <- & Hc & Hp).
        exists (y :: pre), cur, post. simpl. repeat split; auto.
        intros z [<-|Hz]; auto.
      * intros z [<-|Hz]; auto.
Qed.

(** X18.  [get_next_station] returns the station that follows the first
    station of the schedule equal to the given one.  It returns nothing
    when no station of the schedule equals the given one, and when the first
    one that does is the last station of the schedule. *)
Theorem get_next_station_spec (self : Schedule) (s : Station) :
  match get_next_station self s with
  | Some next =>
      exists pre cur post,
        schedule_stations self = pre ++ cur :: next :: post
        /\ Station_eqb cur s = true
        /\ forall y, In y pre -> Station_eqb y s = false
  | None =>
      (forall y, In y (schedule_stations self) -> Station_eqb y s = false)
      \/ exists pre cur,
           schedule_stations self = pre ++ [cur]
           /\ Station_eqb cur s = true
           /\ forall y, In y pre -> Station_eqb y s = false
  end.
Proof.
  unfold get_next_station.
  pose proof (index_of_spec s (schedule_stations self)) as H.
  destruct (index_of s (schedule_stations self)) as [i|]; [|now left].
  destruct H as (pre & cur & post & E & <- & Hc & Hp).
  rewrite E, length_app. simpl List.length.
  destruct post as [|next post].
  - match goal with
    | |- context [(?x <? ?y)%Z] => destruct (Z.ltb_spec x y) as [L|L]
    end.
    + simpl List.length in L. lia.
    + right. exists pre, cur. auto.
  - match goal with
    | |- context [(?x <? ?y)%Z] => destruct (Z.ltb_spec x y) as [L|L]
    end.
    + rewrite nth_error_app2 by lia.
      replace (List.length pre + 1 - List.length pre)%nat with 1%nat by lia.
      simpl. exists pre, cur, post. auto.
    + simpl List.length in L. lia.
Qed.

(** X19.  When [get_section_to_next_station] returns a section, the schedule
    has a next station, the section is one of the schedule's sections and it
    leads from the given station to that next station; and when the schedule
    has such a section for the next station, one is returned. *)
Theorem get_section_to_next_station_spec
  (self : Schedule) (s : Station) :
  (forall sec, get_section_to_next_station self s = Some sec ->
     exists next,
       get_next_station self s = Some next
       /\ In sec (section_sequence self)
       /\ Station_eqb (from_station sec) s = true
       /\ Station_eqb (to_station sec) next = true)
  /\ (forall next sec,
        get_next_station self s = Some next ->
        In sec (section_sequence self) ->
        Station_eqb (from_station sec) s = true ->
        Station_eqb (to_station sec) next = true ->
        get_section_to_next_station self s <> None)
  /\ (get_next_station self s = None ->
      get_section_to_next_station self s = None).
Proof.
  unfold get_section_to_next_station. split; [|split].
  - intros sec H. destruct (get_next_station self s) as [next|]; [|discriminate].
    apply find_some in H. destruct H as [Hin Ht].
    apply andb_true_iff in Ht. exists next. tauto.
  - intros next sec Hn Hin Hf Ht. rewrite Hn. intros E.
    pose proof (find_none _ _ E sec Hin) as F. simpl in F.
    rewrite Hf, Ht in F. discriminate.
  - now intros ->.
Qed.

Lemma get_section_to_next_station_spec_witness :
  exists next,
    get_next_station sample_schedule station_a = Some next
    /\ In (section_between 20 station_a station_b)
          (section_sequence sample_schedule)
    /\ Station_eqb (from_station (section_between 20 station_a station_b))
                   station_a = true
    /\ Station_eqb (to_station (section_between 20 station_a station_b))
                   next = true.
Proof.
  apply (get_section_to_next_station_spec sample_schedule station_a).
  reflexivity.
Defined.

Lemma find_first_match (A : Type) (test : A -> bool) (l : list A) :
  match find test l with
  | Some x => first_match test l x
  | None => forall y, In y l -> test y = false
  end.
Proof.
  induction l as [|y l IH]; simpl; [intros ? []|].
  destruct (test y) eqn:E.
  - exists [], l. simpl. repeat split; auto. intros ? [].
  - destruct (find test l) as [x|].
    + destruct IH as (pre & post & -> & Hx & Hp).
      exists (y :: pre), post. simpl. repeat split; auto.
      intros z [<-|Hz]; auto.
    + intros z [<-|Hz]; auto.
Qed.

(** X20.  The three lookups of a system state return the first train,
    section or station of the state whose identity is the requested one,
    and return nothing exactly when the state has none with that identity. *)
Theorem lookup_by_id_spec (st : SystemState) (key : option UUID) :
  (match get_train_by_id st key with
   | Some t => train_id t = key
               /\ first_match (fun x => id_eqb (train_id x) key) (trains st) t
   | None => forall t, In t (trains st) -> train_id t <> key
   end)
  /\ (match get_section_by_id st key with
      | Some s => section_id s = key
                  /\ first_match (fun x => id_eqb (section_id x) key) (sections st) s
      | None => forall s, In s (sections st) -> section_id s <> key
      end)
  /\ (match get_station_by_id st key with
      | Some s => station_id s = key
                  /\ first_match (fun x => id_eqb (station_id x) key) (stations st) s
      | None => forall s, In s (stations st) -> station_id s <> key
      end).
Proof.
  unfold get_train_by_id, get_section_by_id, get_station_by_id.
  split; [|split].
  - pose proof (find_first_match _ (fun x => id_eqb (train_id x) key) (trains st)) as H.
    destruct (find _ (trains st)) as [t|].
    + split; [|exact H]. destruct H as (_ & _ & _ & Ht & _). now apply id_eqb_eq.
    + intros t Hin E. apply id_eqb_eq in E. rewrite (H t Hin) in E. discriminate.
  - pose proof (find_first_match _ (fun x => id_eqb (section_id x) key) (sections st)) as H.
    destruct (find _ (sections st)) as [s|].
    + split; [|exact H]. destruct H as (_ & _ & _ & Hs & _). now apply id_eqb_eq.
    + intros s Hin E. apply id_eqb_eq in E. rewrite (H s Hin) in E. discriminate.
  - pose proof (find_first_match _ (fun x => id_eqb (station_id x) key) (stations st)) as H.
    destruct (find _ (stations st)) as [s|].
    + split; [|exact H]. destruct H as (_ & _ & _ & Hs & _). now apply id_eqb_eq.
    + intros s Hin E. apply id_eqb_eq in E. rewrite (H s Hin) in E. discriminate.
Qed.

(** X21.  The top-level fallback returns a result exactly when no train of
    the state is Running or Delayed, and the result then has no decision,
    confidence 0.3 and zero metrics; with such a train it raises the
    [TypeError] of its first call [Decision(...)]. *)
Theorem fallback_outcome (rt : Runtime) (st : SystemState) :
  ((forall t, In t (trains st) -> running_or_delayed t = false) ->
   _generate_fallback_decisions rt st
   = Ok {| decisions := [];
           total_delay_reduction := 0;
           throughput_improvement := 0;
           confidence_score := 3 # 10;
           computation_time := 0 |})
  /\ ((exists t, In t (trains st) /\ running_or_delayed t = true) ->
      _generate_fallback_decisions rt st = Raise missing_id).
Proof.
  split.
  - intros H. apply fallback_without_running_train.
    induction (trains st) as [|t l IH]; [reflexivity|].
    simpl. rewrite (H t); [|simpl; auto]. apply IH.
    intros t' Hin. apply H. simpl; auto.
  - intros (t & Hin & Hr). apply fallback_with_running_train. intros E.
    assert (Hf : In t (filter running_or_delayed (trains st)))
      by (apply filter_In; auto).
    rewrite E in Hf. destruct Hf.
Qed.

Lemma fallback_outcome_witness :
  _generate_fallback_decisions Sample.solver_raising
    (Sample.state_of [Sample.stopped_train; Sample.cancelled_train])
  = Ok {| decisions := [];
          total_delay_reduction := 0;
          throughput_improvement := 0;
          confidence_score := 3 # 10;
          computation_time := 0 |}
  /\ _generate_fallback_decisions Sample.solver_raising
       (Sample.state_of [Sample.stopped_train; Sample.unplaced_train])
     = Raise missing_id.
Proof.
  split.
  - apply fallback_outcome. intros t [<-|[<-|[]]]; reflexivity.
  - apply fallback_outcome. exists Sample.unplaced_train.
    split; [simpl; auto | reflexivity].
Defined.
